(** * Storefront domain and use cases: a shallow embedding

    The development follows the layers of the application.

    - [Method] is the monad of an entity method: it runs on the receiver
      ([this]), may assign its fields and either returns or throws.
    - [Prog] is the syntax of a use case: a sequential program whose only
      effects are calls through the repository and service interfaces of the
      domain layer ([Request]), the clock, and exceptions.  [run] executes
      such a program against any implementation of the interfaces
      ([Handler]) and records the calls that were made.
    - [Backend] is an in-memory store answering the REST calls of the
      infrastructure repositories.

    A TypeScript [number] is modelled by [Z]: the model covers the numbers
    that are integers (stocks and quantities of the data model, amounts in
    the smallest unit of the currency), not fractions, infinities or NaN.
    A comparison or a single operation of the source is the same operation
    on [Z]; a statement that relies on a law of exact arithmetic (a sum
    taken apart, two operations that cancel) carries the hypothesis that the
    integers involved stay within [max_safe_integer], where the arithmetic
    of the source is exact.  A [string] holds the UTF-8 encoding of the
    string of the source; [js_length] counts its UTF-16 code units, which is
    the [length] of the source. *)

From stdpp Require Import gmap strings list fin_maps pretty.
From Stdlib Require Import ZArith.

Local Open Scope Z_scope.

(** ** Exceptions and the monad of entity methods *)

Inductive outcome (A : Type) : Type :=
| Returned (a : A)
| Thrown (message : string).
Arguments Returned {A} a.
Arguments Thrown {A} message.

Definition is_thrown {A} (r : outcome A) : Prop :=
  match r with Thrown _ => True | Returned _ => False end.

Definition Method (S A : Type) : Type := S → S * outcome A.

Module Method.
Definition ret {S A} (a : A) : Method S A := λ this, (this, Returned a).
Definition throw {S A} (message : string) : Method S A :=
  λ this, (this, Thrown message).
Definition bind {S A B} (m : Method S A) (k : A → Method S B) : Method S B :=
  λ this,
    match m this with
    | (this', Returned a) => k a this'
    | (this', Thrown message) => (this', Thrown message)
    end.
Definition get {S} : Method S S := λ this, (this, Returned this).
Definition assign {S} (f : S → S) : Method S unit :=
  λ this, (f this, Returned tt).
End Method.

#[global] Instance method_ret S : MRet (Method S) := @Method.ret S.
#[global] Instance method_bind S : MBind (Method S) :=
  λ A B k m, Method.bind m k.

(** ** Numbers and strings of the source *)

(** [Number.MAX_SAFE_INTEGER]: up to it, in absolute value, integers are
    numbers of the source and sums, differences and products that stay in
    range are exact. *)
Definition max_safe_integer : Z := 2 ^ 53 - 1.

Definition safe_integer (x : Z) : Prop :=
  - max_safe_integer ≤ x ≤ max_safe_integer.

(** The UTF-16 code units a byte of a UTF-8 encoding stands for: one for an
    ASCII byte and for the first byte of a sequence of two or three bytes,
    two for the first byte of a sequence of four (a surrogate pair), none
    for a continuation byte. *)
Definition utf16_units (a : Ascii.ascii) : nat :=
  let n := Ascii.nat_of_ascii a in
  if (n <? 128)%nat then 1%nat
  else if (n <? 192)%nat then 0%nat
  else if (n <? 240)%nat then 1%nat
  else 2%nat.

(** [s.length] *)
Fixpoint js_length (s : string) : nat :=
  match s with
  | EmptyString => 0%nat
  | String a s' => (utf16_units a + js_length s')%nat
  end.

(** ** Domain entities *)

(** src/domain/entities/Product.ts *)
Module Product.
Record t : Type := mk { id : string; name : string; price : Z; stock : Z }.

Definition set_stock (v : Z) (this : t) : t :=
  {| id := id this; name := name this; price := price this; stock := v |}.

Definition decreaseStock (quantity : Z) : Method t unit :=
  this ← Method.get;
  if bool_decide (quantity > stock this)
  then Method.throw "Stock insuficiente"
  else Method.assign (set_stock (stock this - quantity)).

Definition increaseStock (quantity : Z) : Method t unit :=
  this ← Method.get;
  Method.assign (set_stock (stock this + quantity)).
End Product.

(** src/domain/entities/OrderItem.ts *)
Module OrderItem.
Record t : Type := mk { productId : string; quantity : Z; price : Z }.
End OrderItem.

(** src/domain/entities/Order.ts *)
Module Order.
Inductive Status : Type := pending | processing | completed | cancelled.

#[global] Instance Status_eq_dec : EqDecision Status.
Proof. solve_decision. Defined.

Record t : Type := mk {
  id : string;
  customerId : string;
  status : Status;
  items : list OrderItem.t;
  totalAmount : Z
}.

(** [new Order(id, customerId, status)]: the fields [items] and
    [totalAmount] start at [[]] and [0]; the third argument of the
    constructor defaults to [pending]. *)
Definition new (id customerId : string) (status : Status) : t :=
  {| id := id; customerId := customerId; status := status;
     items := []; totalAmount := 0 |}.

Definition set_items (v : list OrderItem.t) (this : t) : t :=
  {| id := id this; customerId := customerId this; status := status this;
     items := v; totalAmount := totalAmount this |}.
Definition set_totalAmount (v : Z) (this : t) : t :=
  {| id := id this; customerId := customerId this; status := status this;
     items := items this; totalAmount := v |}.
Definition set_status (v : Status) (this : t) : t :=
  {| id := id this; customerId := customerId this; status := v;
     items := items this; totalAmount := totalAmount this |}.

(** [items.reduce((total, item) => total + item.quantity * item.price, 0)] *)
Definition recalculateTotal : Method t unit :=
  this ← Method.get;
  Method.assign
    (set_totalAmount
       (fold_left
          (λ total item, total + OrderItem.quantity item * OrderItem.price item)
          (items this) 0)).

Definition addItem (item : OrderItem.t) : Method t unit :=
  this ← Method.get;
  Method.assign (set_items (items this ++ [item]));;
  recalculateTotal.

Definition removeItem (productId : string) : Method t unit :=
  this ← Method.get;
  Method.assign
    (set_items
       (filter (λ item, OrderItem.productId item ≠ productId) (items this)));;
  recalculateTotal.

Definition process : Method t unit :=
  this ← Method.get;
  if bool_decide (status this ≠ pending)
  then Method.throw "La orden no está en estado pendiente"
  else Method.assign (set_status processing).

Definition complete : Method t unit :=
  this ← Method.get;
  if bool_decide (status this ≠ processing)
  then Method.throw "La orden no está en estado de procesamiento"
  else Method.assign (set_status completed).

Definition cancel : Method t unit :=
  this ← Method.get;
  if bool_decide (status this = completed)
  then Method.throw "No se puede cancelar una orden completada"
  else Method.assign (set_status cancelled).
End Order.

(** src/domain/entities/User.ts *)
Module User.
Inductive Role : Type := customer | admin.
Record t : Type := mk { id : string; email : string; name : string; role : Role }.
End User.

(** ** Value objects *)

(** src/domain/value-objects/Money.ts.  The constructor is private: values
    are built by [create] only.  [add] is a method of an immutable object,
    so it is a function of the receiver and its argument. *)
Module Money.
Record t : Type := mk { amount : Z; currency : string }.

Definition create (amount : Z) (currency : string) : outcome t :=
  if bool_decide (amount < 0)
  then Thrown "El monto no puede ser negativo"
  else if bool_decide (js_length currency ≠ 3%nat)
  then Thrown "El código de moneda debe tener 3 caracteres"
  else Returned (mk amount currency).

Definition getAmount (this : t) : Z := amount this.
Definition getCurrency (this : t) : string := currency this.

Definition add (this other : t) : outcome t :=
  if bool_decide (currency this ≠ currency other)
  then Thrown "No se pueden sumar montos de diferentes monedas"
  else create (amount this + amount other) (currency this).

(** [a.add(b)] where [a] and [b] are themselves results of [create]: an
    exception in either operand propagates, the receiver first. *)
Definition add_created (a b : outcome t) : outcome t :=
  match a with
  | Thrown message => Thrown message
  | Returned this =>
      match b with
      | Thrown message => Thrown message
      | Returned other => add this other
      end
  end.
End Money.

(** ** Use cases as programs over the interfaces of the domain layer *)

(** One constructor per operation a use case reaches through an injected
    interface ([ProductRepository], [OrderRepository], [UserRepository],
    [AuthenticationService]), and one for the clock ([Date.now()]). *)
Inductive Request : Type :=
| DateNow
| ProductFindById (id : string)
| ProductSave (product : Product.t)
| OrderSave (order : Order.t)
| UserFindByEmail (email : string)
| AuthAuthenticate (email password : string).

Definition Response (r : Request) : Type :=
  match r with
  | DateNow => Z
  | ProductFindById _ => option Product.t
  | ProductSave _ => unit
  | OrderSave _ => unit
  | UserFindByEmail _ => option User.t
  | AuthAuthenticate _ _ => string
  end.

Inductive Prog (A : Type) : Type :=
| Ret (a : A)
| Throw (message : string)
| Call (r : Request) (k : Response r → Prog A).
Arguments Ret {A} a.
Arguments Throw {A} message.
Arguments Call {A} r k.

Fixpoint prog_bind {A B} (p : Prog A) (f : A → Prog B) : Prog B :=
  match p with
  | Ret a => f a
  | Throw message => Throw message
  | Call r k => Call r (λ x, prog_bind (k x) f)
  end.

#[global] Instance prog_ret : MRet Prog := @Ret.
#[global] Instance prog_mbind : MBind Prog := λ A B f p, prog_bind p f.

Definition call (r : Request) : Prog (Response r) := Call r Ret.

(** A method call on a local object: the updated object is passed on, an
    exception of the method propagates to the caller. *)
Definition invoke {S} (m : Method S unit) (this : S) : Prog S :=
  match m this with
  | (this', Returned _) => Ret this'
  | (_, Thrown message) => Throw message
  end.

(** [for (const x of xs) { body }], threading the object the body mutates. *)
Fixpoint for_of {X S} (xs : list X) (body : X → S → Prog S) (s : S) : Prog S :=
  match xs with
  | [] => Ret s
  | x :: xs' => s' ← body x s; for_of xs' body s'
  end.

(** An element of the [items] argument of [CreateOrderUseCase.execute]. *)
Module ItemRequest.
Record t : Type := mk { productId : string; quantity : Z }.
End ItemRequest.

(** src/application/use-cases/CreateOrderUseCase.ts *)
Module CreateOrderUseCase.
Definition loop_body (item : ItemRequest.t) (order : Order.t) : Prog Order.t :=
  product ← call (ProductFindById (ItemRequest.productId item));
  match product with
  | None =>
      Throw ("Producto " +:+ ItemRequest.productId item +:+ " no encontrado")
  | Some product =>
      if bool_decide (Product.stock product < ItemRequest.quantity item)
      then Throw ("Stock insuficiente para el producto " +:+ Product.name product)
      else
        product ← invoke (Product.decreaseStock (ItemRequest.quantity item)) product;
        call (ProductSave product);;
        invoke
          (Order.addItem
             (OrderItem.mk (Product.id product) (ItemRequest.quantity item)
                (Product.price product)))
          order
  end.

Definition execute (customerId : string) (items : list ItemRequest.t)
  : Prog Order.t :=
  now ← call DateNow;
  let order := Order.new (pretty now) customerId Order.pending in
  order ← for_of items loop_body order;
  call (OrderSave order);;
  mret order.
End CreateOrderUseCase.

(** src/application/use-cases/AuthenticateUserUseCase.ts *)
Module AuthenticateUserUseCase.
Definition execute (email password : string) : Prog string :=
  user ← call (UserFindByEmail email);
  match user with
  | None => Throw "Usuario no encontrado"
  | Some _ => call (AuthAuthenticate email password)
  end.
End AuthenticateUserUseCase.

(** ** Running a use case *)

(** An implementation of the injected interfaces over a world [W]: every
    call may change the world and returns or throws (a rejected promise). *)
Definition Handler (W : Type) : Type :=
  ∀ r : Request, W → W * outcome (Response r).

Record Run (W A : Type) : Type := mkRun {
  final : W;
  trace : list Request;
  result : outcome A
}.
Arguments mkRun {W A} final trace result.
Arguments final {W A} _.
Arguments trace {W A} _.
Arguments result {W A} _.

(** [trace] lists the calls in the order they were made, the failing one
    included. *)
Fixpoint run {W A} (h : Handler W) (p : Prog A) (w : W) : Run W A :=
  match p with
  | Ret a => mkRun w [] (Returned a)
  | Throw message => mkRun w [] (Thrown message)
  | Call r k =>
      match h r w with
      | (w', Returned x) =>
          let rest := run h (k x) w' in
          mkRun (final rest) (r :: trace rest) (result rest)
      | (w', Thrown message) => mkRun w' [r] (Thrown message)
      end
  end.

(** ** An in-memory backend behind the REST repositories

    src/infrastructure/repositories: [findById] is [GET /products/:id] and
    builds a fresh [Product] from the answer, or [null] when there is none;
    [save] is [PUT /products/:id] (resp. [/orders/:id]) under the id of the
    object sent; [findByEmail] takes the first user of
    [GET /users?email=]; [authenticate] is [POST /login].  The backend below
    answers every call: a failing transport is another [Handler], one that
    throws. *)
Record Backend : Type := mkBackend {
  products : gmap string Product.t;
  orders : gmap string Order.t;
  users : list User.t;
  tokens : gmap (string * string) string;
  clock : Z
}.

Definition set_products (v : gmap string Product.t) (b : Backend) : Backend :=
  {| products := v; orders := orders b; users := users b;
     tokens := tokens b; clock := clock b |}.
Definition set_orders (v : gmap string Order.t) (b : Backend) : Backend :=
  {| products := products b; orders := v; users := users b;
     tokens := tokens b; clock := clock b |}.

Definition backend : Handler Backend :=
  λ r,
    match r as r0 return Backend → Backend * outcome (Response r0) with
    | DateNow => λ b, (b, Returned (clock b))
    | ProductFindById id => λ b, (b, Returned (products b !! id))
    | ProductSave product =>
        λ b, (set_products (<[Product.id product := product]> (products b)) b,
              Returned tt)
    | OrderSave order =>
        λ b, (set_orders (<[Order.id order := order]> (orders b)) b,
              Returned tt)
    | UserFindByEmail email =>
        λ b, (b, Returned (head (filter (λ u, User.email u = email) (users b))))
    | AuthAuthenticate email password =>
        λ b, (b, match tokens b !! (email, password) with
                 | Some token => Returned token
                 | None => Thrown "Request failed with status code 401"
                 end)
    end.

(** ** Specification-side definitions *)

(** The sum over the line items of quantity times price, as the data model
    words it (the source computes it with a left-to-right [reduce]). *)
Definition line_total (item : OrderItem.t) : Z :=
  OrderItem.quantity item * OrderItem.price item.

Definition sum_of_lines (items : list OrderItem.t) : Z :=
  foldr Z.add 0 (line_total <$> items).

(** The invariant of the data model on an order. *)
Definition consistent (o : Order.t) : Prop :=
  Order.totalAmount o = sum_of_lines (Order.items o).

(** The calls that change the line items of an order. *)
Inductive ItemCall : Type :=
| AddItem (item : OrderItem.t)
| RemoveItem (productId : string).

Definition item_call (c : ItemCall) : Method Order.t unit :=
  match c with
  | AddItem item => Order.addItem item
  | RemoveItem productId => Order.removeItem productId
  end.

Fixpoint item_calls (cs : list ItemCall) : Method Order.t unit :=
  match cs with
  | [] => mret tt
  | c :: cs' => item_call c;; item_calls cs'
  end.

(** The calls that change the status of an order. *)
Inductive StatusCall : Type := Process | Complete | Cancel.

Definition status_call (c : StatusCall) : Method Order.t unit :=
  match c with
  | Process => Order.process
  | Complete => Order.complete
  | Cancel => Order.cancel
  end.

(** The transitions the source lets through: the diagram
    pending → processing → completed, pending | processing → cancelled,
    and the loop on cancelled that [cancel] does not reject. *)
Inductive transition : Order.Status → StatusCall → Order.Status → Prop :=
| t_process : transition Order.pending Process Order.processing
| t_complete : transition Order.processing Complete Order.completed
| t_cancel_pending : transition Order.pending Cancel Order.cancelled
| t_cancel_processing : transition Order.processing Cancel Order.cancelled
| t_cancel_cancelled : transition Order.cancelled Cancel Order.cancelled.

(** The transitions of the diagram alone. *)
Inductive diagram : Order.Status → StatusCall → Order.Status → Prop :=
| d_process : diagram Order.pending Process Order.processing
| d_complete : diagram Order.processing Complete Order.completed
| d_cancel_pending : diagram Order.pending Cancel Order.cancelled
| d_cancel_processing : diagram Order.processing Cancel Order.cancelled.




(** What the repository holds once the loop of [CreateOrderUseCase.execute]
    has gone through an item: the product found under the requested id is
    saved back, under its own id, with the quantity taken off its stock. *)
Definition commit_item (m : gmap string Product.t) (item : ItemRequest.t)
  : gmap string Product.t :=
  match m !! ItemRequest.productId item with
  | Some p =>
      <[Product.id p :=
          Product.set_stock (Product.stock p - ItemRequest.quantity item) p]> m
  | None => m
  end.

Definition commit_items (items : list ItemRequest.t) (m : gmap string Product.t)
  : gmap string Product.t :=
  foldl commit_item m items.

(** The item's product is present with a stock that covers the request. *)
Definition in_stock (m : gmap string Product.t) (item : ItemRequest.t) : bool :=
  match m !! ItemRequest.productId item with
  | Some p => bool_decide (ItemRequest.quantity item ≤ Product.stock p)
  | None => false
  end.

(** Every item is in stock when its turn comes. *)
Fixpoint all_in_stock (m : gmap string Product.t) (items : list ItemRequest.t)
  : bool :=
  match items with
  | [] => true
  | item :: items' => in_stock m item && all_in_stock (commit_item m item) items'
  end.

(** The line item the loop appends for a request. *)
Definition line_of (m : gmap string Product.t) (item : ItemRequest.t)
  : option OrderItem.t :=
  p ← m !! ItemRequest.productId item;
  Some (OrderItem.mk (Product.id p) (ItemRequest.quantity item) (Product.price p)).

(** The calls the loop makes on items that are all in stock: a lookup and
    a save for each. *)
Fixpoint loop_calls (m : gmap string Product.t) (items : list ItemRequest.t)
  : list Request :=
  match items with
  | [] => []
  | item :: items' =>
      ProductFindById (ItemRequest.productId item)
      :: match m !! ItemRequest.productId item with
         | Some p =>
             [ProductSave
                (Product.set_stock
                   (Product.stock p - ItemRequest.quantity item) p)]
         | None => []
         end
      ++ loop_calls (commit_item m item) items'
  end.

(** The line items the loop appends for them, each with the price of the
    product as found. *)
Fixpoint lines_of (m : gmap string Product.t) (items : list ItemRequest.t)
  : list OrderItem.t :=
  match items with
  | [] => []
  | item :: items' =>
      match line_of m item with Some l => [l] | None => [] end
      ++ lines_of (commit_item m item) items'
  end.

Definition append_line (order : Order.t) (l : OrderItem.t) : Order.t :=
  fst (Order.addItem l order).

(** The repository files every product under its own id. *)
Definition keyed_by_id (m : gmap string Product.t) : Prop :=
  ∀ k p, m !! k = Some p → Product.id p = k.

(** ** Further code of the repository *)

(** src/domain/value-objects/Password.ts (src/enunciado.md) *)
Module Password.
Record t : Type := mk { value : string }.

Definition create (value : string) : outcome t :=
  if bool_decide (js_length value < 8)%nat
  then Thrown "La contraseña debe tener al menos 8 caracteres"
  else Returned (mk value).

Definition getValue (this : t) : string := value this.
End Password.

(** A call of a static factory inside a use case: its exception is the
    exception of the use case. *)
Definition created {A} (r : outcome A) : Prog A :=
  match r with
  | Returned a => Ret a
  | Thrown message => Throw message
  end.

(** src/application/use-cases/AuthenticateUserUseCase.ts as src/enunciado.md
    has it, with the [Password] value object: the service receives the
    validated password, here as the string it wraps. *)
Module AuthenticateUserUseCaseWithPassword.
Definition execute (email password : string) : Prog string :=
  user ← call (UserFindByEmail email);
  match user with
  | None => Throw "Usuario no encontrado"
  | Some _ =>
      passwordVO ← created (Password.create password);
      call (AuthAuthenticate email (Password.getValue passwordVO))
  end.
End AuthenticateUserUseCaseWithPassword.

(** src/application/use-cases/CreateProductUseCase.ts *)
Module CreateProductUseCase.
Definition execute (name : string) (price stock : Z) : Prog Product.t :=
  now ← call DateNow;
  let product := Product.mk (pretty now) name price stock in
  call (ProductSave product);;
  mret product.
End CreateProductUseCase.

(** The receiver as a method call leaves it, whether the call returned or
    threw. *)
Definition after {S A} (m : Method S A) (this : S) : S := fst (m this).

(** An order after a sequence of status calls, each one attempted in turn
    whatever the previous ones did. *)
Definition status_attempts (cs : list StatusCall) (this : Order.t) : Order.t :=
  foldl (λ o c, after (status_call c) o) this cs.

(** What [Money.create] lets through. *)
Definition money_valid (m : Money.t) : Prop :=
  0 ≤ Money.amount m ∧ js_length (Money.currency m) = 3%nat.


(** A call the loop of [CreateOrderUseCase.execute] may make, with the
    stock a saved product may have. *)
Definition loop_call (r : Request) : Prop :=
  match r with
  | ProductFindById _ => True
  | ProductSave p => 0 ≤ Product.stock p
  | _ => False
  end.


(** Every stock the repository holds is a safe integer. *)
Definition safe_stocks (m : gmap string Product.t) : Prop :=
  ∀ k p, m !! k = Some p → safe_integer (Product.stock p).

(** The quantities of a list of requests, added up. *)
Definition total_requested (items : list ItemRequest.t) : Z :=
  foldr Z.add 0 (ItemRequest.quantity <$> items).

(** The quantity a list of requests asks of the product [k] in all. *)
Definition requested (k : string) (items : list ItemRequest.t) : Z :=
  foldr Z.add 0
    (ItemRequest.quantity <$> filter (λ x, ItemRequest.productId x = k) items).

(** The amount of the line items of a product. *)
Definition lines_for (k : string) (items : list OrderItem.t) : Z :=
  sum_of_lines (filter (λ item, OrderItem.productId item = k) items).

(** * Properties *)

(** Unfolds the sequencing of the method monad. *)
Ltac method_steps :=
  unfold mbind, method_bind, Method.bind, Method.get, Method.assign,
    Method.throw.

(** ** Product *)

Lemma decreaseStock_unfold (quantity : Z) (this : Product.t) :
  Product.decreaseStock quantity this =
    if bool_decide (quantity > Product.stock this)
    then (this, Thrown "Stock insuficiente")
    else (Product.set_stock (Product.stock this - quantity) this, Returned tt).
Proof.
  unfold Product.decreaseStock. method_steps. by case_bool_decide.
Qed.

(** C5. On a product whose stock is a non-negative integer, [decreaseStock]
    called with a non-negative quantity that does not exceed the stock
    returns, leaves the stock at the old stock minus the quantity, which is
    not negative, and touches no other field. *)
Theorem decreaseStock_within_stock (this : Product.t) (quantity : Z) :
  0 ≤ Product.stock this →
  0 ≤ quantity →
  quantity ≤ Product.stock this →
  ∃ this',
    Product.decreaseStock quantity this = (this', Returned tt)
    ∧ Product.stock this' = Product.stock this - quantity
    ∧ 0 ≤ Product.stock this'
    ∧ Product.id this' = Product.id this
    ∧ Product.name this' = Product.name this
    ∧ Product.price this' = Product.price this.
Proof.
  intros Hstock Hq Hle. rewrite decreaseStock_unfold.
  rewrite bool_decide_false by lia.
  eexists; split; [reflexivity|]. simpl. repeat split; lia.
Qed.

Lemma decreaseStock_within_stock_witness :
  let this := Product.mk "1" "Test Product" 10 5 in
  0 ≤ Product.stock this ∧ 0 ≤ 3 ∧ 3 ≤ Product.stock this
  ∧ ∃ this',
      Product.decreaseStock 3 this = (this', Returned tt)
      ∧ Product.stock this' = Product.stock this - 3
      ∧ 0 ≤ Product.stock this'
      ∧ Product.id this' = Product.id this
      ∧ Product.name this' = Product.name this
      ∧ Product.price this' = Product.price this.
Proof.
  intros this. repeat split; try (simpl; lia).
  apply (decreaseStock_within_stock this 3); simpl; lia.
Defined.

(** C6. When the quantity exceeds the stock, [decreaseStock] throws and the
    product is the one it was before the call: the stock, like every other
    field, is unchanged. *)
Theorem decreaseStock_beyond_stock (this : Product.t) (quantity : Z) :
  quantity > Product.stock this →
  Product.decreaseStock quantity this = (this, Thrown "Stock insuficiente").
Proof.
  intros Hgt. rewrite decreaseStock_unfold. by rewrite bool_decide_true.
Qed.

Lemma decreaseStock_beyond_stock_witness :
  6 > Product.stock (Product.mk "1" "Test Product" 10 5)
  ∧ Product.decreaseStock 6 (Product.mk "1" "Test Product" 10 5)
    = (Product.mk "1" "Test Product" 10 5, Thrown "Stock insuficiente").
Proof.
  split; [simpl; lia|]. apply decreaseStock_beyond_stock. simpl; lia.
Defined.

(** C9, as the source has it.  [increaseStock] returns for every product
    and every quantity, and leaves the stock at the old stock plus the
    quantity, all other fields untouched; no bound limits it: whatever the
    bound, some quantity takes the stock above it.  It has no guard on the
    sign either, so the stock is raised only if the quantity is positive. *)
Theorem increaseStock_adds (this : Product.t) (quantity : Z) :
  (∃ this',
     Product.increaseStock quantity this = (this', Returned tt)
     ∧ Product.stock this' = Product.stock this + quantity
     ∧ (Product.stock this < Product.stock this' → 0 < quantity)
     ∧ Product.id this' = Product.id this
     ∧ Product.name this' = Product.name this
     ∧ Product.price this' = Product.price this)
  ∧ (∀ bound : Z, ∃ q this',
       Product.increaseStock q this = (this', Returned tt)
       ∧ bound < Product.stock this').
Proof.
  split.
  - eexists; split; [reflexivity|]. simpl. repeat split; lia.
  - intros bound. exists (Z.max 0 (bound - Product.stock this) + 1).
    eexists; split; [reflexivity|]. simpl. lia.
Qed.

(** C9, as stated, fails on a quantity that is not positive:
    [increaseStock(-1)] takes a stock of 5 down to 4, and [increaseStock(0)]
    leaves it at 5. *)
Lemma increaseStock_can_lower_stock :
  let this := Product.mk "1" "Test Product" 10 5 in
  Product.increaseStock (-1) this = (Product.mk "1" "Test Product" 10 4, Returned tt)
  ∧ Product.stock (fst (Product.increaseStock (-1) this)) < Product.stock this
  ∧ ¬ Product.stock this < Product.stock (fst (Product.increaseStock 0 this)).
Proof.
  intros this. split; [reflexivity|]. split; simpl; lia.
Qed.

(** ** Order: status transitions *)

Lemma process_unfold (this : Order.t) :
  Order.process this =
    if bool_decide (Order.status this ≠ Order.pending)
    then (this, Thrown "La orden no está en estado pendiente")
    else (Order.set_status Order.processing this, Returned tt).
Proof.
  unfold Order.process. method_steps. by case_bool_decide.
Qed.

Lemma complete_unfold (this : Order.t) :
  Order.complete this =
    if bool_decide (Order.status this ≠ Order.processing)
    then (this, Thrown "La orden no está en estado de procesamiento")
    else (Order.set_status Order.completed this, Returned tt).
Proof.
  unfold Order.complete. method_steps. by case_bool_decide.
Qed.

Lemma cancel_unfold (this : Order.t) :
  Order.cancel this =
    if bool_decide (Order.status this = Order.completed)
    then (this, Thrown "No se puede cancelar una orden completada")
    else (Order.set_status Order.cancelled this, Returned tt).
Proof.
  unfold Order.cancel. method_steps. by case_bool_decide.
Qed.

(** C1, as the source has it.  A status call returns exactly along the
    transitions pending → processing → completed,
    pending | processing → cancelled and cancelled → cancelled, changing the
    status and nothing else; every other call throws and leaves the order as
    it was.  So [process] throws unless the status is pending, [complete]
    throws unless it is processing, and [cancel] throws exactly when it is
    completed. *)
Theorem status_transitions (this : Order.t) (c : StatusCall) :
  ((∃ s', transition (Order.status this) c s'
          ∧ status_call c this = (Order.set_status s' this, Returned tt))
   ∨ ((∀ s', ¬ transition (Order.status this) c s')
      ∧ ∃ message, status_call c this = (this, Thrown message)))
  ∧ (is_thrown (snd (Order.process this)) ↔ Order.status this ≠ Order.pending)
  ∧ (is_thrown (snd (Order.complete this)) ↔ Order.status this ≠ Order.processing)
  ∧ (is_thrown (snd (Order.cancel this)) ↔ Order.status this = Order.completed).
Proof.
  split; [|split; [|split]].
  - destruct c; simpl;
      rewrite ?process_unfold, ?complete_unfold, ?cancel_unfold;
      destruct (Order.status this) eqn:Hs; simpl;
      first [ left; eexists; split; [constructor | reflexivity]
            | right; split; [intros s' Ht; inversion Ht | eexists; reflexivity] ].
  - rewrite process_unfold. case_bool_decide; simpl; tauto.
  - rewrite complete_unfold. case_bool_decide; simpl; tauto.
  - rewrite cancel_unfold. case_bool_decide; simpl; tauto.
Qed.

(** C1, as stated, fails on an order that is already cancelled: cancelling
    a fresh order and cancelling it again, the second [cancel] returns, on a
    transition cancelled → cancelled that the diagram does not have. *)
Lemma cancel_of_cancelled_returns :
  let fresh := Order.new "1700000000000" "c1" Order.pending in
  let this := fst (Order.cancel fresh) in
  Order.status this = Order.cancelled
  ∧ Order.cancel this = (this, Returned tt)
  ∧ ¬ is_thrown (snd (Order.cancel this))
  ∧ ¬ diagram (Order.status this) Cancel (Order.status (fst (Order.cancel this))).
Proof.
  intros fresh this. split; [reflexivity|]. split; [reflexivity|].
  split; [intros []|]. intros Hd. vm_compute in Hd. inversion Hd.
Qed.

(** ** Order: line items and total *)

Lemma sum_of_lines_nil : sum_of_lines [] = 0.
Proof. reflexivity. Qed.

Lemma sum_of_lines_cons (item : OrderItem.t) (items : list OrderItem.t) :
  sum_of_lines (item :: items) = line_total item + sum_of_lines items.
Proof. reflexivity. Qed.


Lemma fold_left_total (items : list OrderItem.t) (start : Z) :
  fold_left
    (λ total item, total + OrderItem.quantity item * OrderItem.price item)
    items start
  = start + sum_of_lines items.
Proof.
  revert start. induction items as [|item items IH]; intros start; simpl.
  - rewrite sum_of_lines_nil. lia.
  - rewrite IH, sum_of_lines_cons. unfold line_total. lia.
Qed.

Lemma recalculateTotal_unfold (this : Order.t) :
  Order.recalculateTotal this
  = (Order.set_totalAmount (sum_of_lines (Order.items this)) this, Returned tt).
Proof.
  unfold Order.recalculateTotal. method_steps.
  by rewrite fold_left_total, Z.add_0_l.
Qed.

Lemma addItem_unfold (item : OrderItem.t) (this : Order.t) :
  Order.addItem item this
  = (Order.set_totalAmount (sum_of_lines (Order.items this ++ [item]))
       (Order.set_items (Order.items this ++ [item]) this),
     Returned tt).
Proof.
  unfold Order.addItem. method_steps.
  by rewrite recalculateTotal_unfold.
Qed.

Lemma removeItem_unfold (productId : string) (this : Order.t) :
  let kept :=
    filter (λ item, OrderItem.productId item ≠ productId) (Order.items this) in
  Order.removeItem productId this
  = (Order.set_totalAmount (sum_of_lines kept) (Order.set_items kept this),
     Returned tt).
Proof.
  unfold Order.removeItem. method_steps.
  by rewrite recalculateTotal_unfold.
Qed.

Lemma new_consistent (id customerId : string) (status : Order.Status) :
  consistent (Order.new id customerId status).
Proof. reflexivity. Qed.

Lemma item_call_consistent (c : ItemCall) (this : Order.t) :
  ∃ this', item_call c this = (this', Returned tt) ∧ consistent this'.
Proof.
  destruct c as [item|productId]; simpl.
  - rewrite addItem_unfold. eexists; split; [reflexivity|]. reflexivity.
  - rewrite removeItem_unfold. eexists; split; [reflexivity|]. reflexivity.
Qed.

Lemma item_calls_app (cs1 cs2 : list ItemCall) (this : Order.t) :
  item_calls (cs1 ++ cs2) this
  = match item_calls cs1 this with
    | (this', Returned _) => item_calls cs2 this'
    | (this', Thrown message) => (this', Thrown message)
    end.
Proof.
  revert this. induction cs1 as [|c cs1 IH]; intros this; simpl; [done|].
  method_steps.
  destruct (item_call_consistent c this) as (this' & -> & _). apply IH.
Qed.

Lemma item_calls_returns (cs : list ItemCall) (this : Order.t) :
  ∃ this', item_calls cs this = (this', Returned tt).
Proof.
  revert this. induction cs as [|c cs IH]; intros this; simpl.
  - by eexists.
  - unfold mbind, method_bind, Method.bind.
    destruct (item_call_consistent c this) as (this' & -> & _). apply IH.
Qed.

Lemma item_calls_snoc (this : Order.t) (before : list ItemCall) (c : ItemCall) :
  ∃ this', item_calls (before ++ [c]) this = (this', Returned tt) ∧ consistent this'.
Proof.
  rewrite item_calls_app.
  destruct (item_calls_returns before this) as (mid & ->). simpl.
  method_steps.
  destruct (item_call_consistent c mid) as (this' & -> & Hc). simpl.
  by exists this'.
Qed.

(** The invariant holds from the constructor on, so after any sequence of
    calls, the empty one included. *)
Lemma total_from_new
  (id customerId : string) (status : Order.Status) (cs : list ItemCall) :
  ∃ this',
    item_calls cs (Order.new id customerId status) = (this', Returned tt)
    ∧ consistent this'.
Proof.
  destruct cs as [|c cs _] using rev_ind.
  - eexists; split; [reflexivity|]. apply new_consistent.
  - apply item_calls_snoc.
Qed.






(** ** Money *)



(** ** Running programs *)

Lemma run_bind {W A B} (h : Handler W) (p : Prog A) (f : A → Prog B) (w : W) :
  run h (p ≫= f) w
  = match result (run h p w) with
    | Returned a =>
        let rest := run h (f a) (final (run h p w)) in
        mkRun (final rest) (trace (run h p w) ++ trace rest) (result rest)
    | Thrown message =>
        mkRun (final (run h p w)) (trace (run h p w)) (Thrown message)
    end.
Proof.
  unfold mbind, prog_mbind. revert w.
  induction p as [a|message|r k IH]; intros w; simpl.
  - by destruct (run h (f a) w).
  - done.
  - destruct (h r w) as [w' [x|message]]; simpl; [|done].
    rewrite IH. by destruct (result (run h (k x) w')).
Qed.

Lemma run_for_of_cons {W X S} (h : Handler W)
  (x : X) (xs : list X) (body : X → S → Prog S) (s : S) (w : W) :
  run h (for_of (x :: xs) body s) w
  = match result (run h (body x s) w) with
    | Returned s' =>
        let rest := run h (for_of xs body s') (final (run h (body x s) w)) in
        mkRun (final rest) (trace (run h (body x s) w) ++ trace rest) (result rest)
    | Thrown message =>
        mkRun (final (run h (body x s) w)) (trace (run h (body x s) w))
          (Thrown message)
    end.
Proof. simpl. apply run_bind. Qed.

Lemma run_for_of_app {W X S} (h : Handler W)
  (xs ys : list X) (body : X → S → Prog S) (s : S) (w : W) :
  run h (for_of (xs ++ ys) body s) w
  = match result (run h (for_of xs body s) w) with
    | Returned s' =>
        let rest := run h (for_of ys body s') (final (run h (for_of xs body s) w)) in
        mkRun (final rest) (trace (run h (for_of xs body s) w) ++ trace rest)
          (result rest)
    | Thrown message =>
        mkRun (final (run h (for_of xs body s) w))
          (trace (run h (for_of xs body s) w)) (Thrown message)
    end.
Proof.
  revert s w. induction xs as [|x xs IH]; intros s w.
  - simpl. by destruct (run h (for_of ys body s) w).
  - rewrite <- app_comm_cons, !run_for_of_cons.
    destruct (run h (body x s) w) as [w1 tr1 [s1|message]]; simpl; [|done].
    rewrite IH.
    destruct (run h (for_of xs body s1) w1) as [w2 tr2 [s2|message]]; simpl;
      [|done].
    by rewrite app_assoc.
Qed.

(** ** AuthenticateUserUseCase *)

(** C8. Whatever implements the user repository and the authentication
    service, when the repository answers [findByEmail(email)] with no user,
    [execute] throws "Usuario no encontrado" and that lookup is the only
    call it made: [authenticate] was not invoked, and the world is as the
    lookup left it. *)
Theorem authenticate_unknown_email
  {W} (h : Handler W) (w w' : W) (email password : string) :
  h (UserFindByEmail email) w = (w', Returned None) →
  let r := run h (AuthenticateUserUseCase.execute email password) w in
  result r = Thrown "Usuario no encontrado"
  ∧ trace r = [UserFindByEmail email]
  ∧ (∀ e p, AuthAuthenticate e p ∉ trace r)
  ∧ final r = w'.
Proof.
  intros Hfind. simpl. rewrite Hfind. simpl.
  repeat split. intros e p Hin.
  apply list_elem_of_singleton in Hin. discriminate.
Qed.

Lemma authenticate_unknown_email_witness :
  let b :=
    mkBackend ∅ ∅ [User.mk "u1" "alice@example.com" "Alice" User.customer]
      {[ ("alice@example.com", "secret") := "jwt" ]} 1700000000000 in
  backend (UserFindByEmail "bob@example.com") b = (b, Returned None)
  ∧ let r :=
      run backend (AuthenticateUserUseCase.execute "bob@example.com" "secret") b in
    result r = Thrown "Usuario no encontrado"
    ∧ trace r = [UserFindByEmail "bob@example.com"]
    ∧ (∀ e p, AuthAuthenticate e p ∉ trace r)
    ∧ final r = b.
Proof.
  intros b. split; [reflexivity|].
  apply (authenticate_unknown_email backend b b). reflexivity.
Defined.

(** A known email, for contrast: the use case goes on to [authenticate]. *)
Example authenticate_known_email :
  let b :=
    mkBackend ∅ ∅ [User.mk "u1" "alice@example.com" "Alice" User.customer]
      {[ ("alice@example.com", "secret") := "jwt" ]} 1700000000000 in
  let r :=
    run backend (AuthenticateUserUseCase.execute "alice@example.com" "secret") b in
  result r = Returned "jwt"
  ∧ trace r = [UserFindByEmail "alice@example.com";
               AuthAuthenticate "alice@example.com" "secret"].
Proof. split; reflexivity. Qed.

(** ** CreateOrderUseCase *)

Lemma set_products_same (b : Backend) : set_products (products b) b = b.
Proof. by destruct b. Qed.

Lemma in_stock_true (m : gmap string Product.t) (item : ItemRequest.t) :
  in_stock m item = true ↔
  ∃ p, m !! ItemRequest.productId item = Some p
       ∧ ItemRequest.quantity item ≤ Product.stock p.
Proof.
  unfold in_stock. destruct (m !! ItemRequest.productId item) as [p|].
  - rewrite bool_decide_eq_true. split; [by exists p|].
    by intros (p' & [= <-] & Hle).
  - split; [done|]. by intros (p' & ? & _).
Qed.

Lemma in_stock_false (m : gmap string Product.t) (item : ItemRequest.t) :
  in_stock m item = false ↔
  m !! ItemRequest.productId item = None
  ∨ ∃ p, m !! ItemRequest.productId item = Some p
         ∧ ItemRequest.quantity item > Product.stock p.
Proof.
  unfold in_stock. destruct (m !! ItemRequest.productId item) as [p|].
  - rewrite bool_decide_eq_false. split.
    + intros Hgt. right. exists p. split; [done|lia].
    + intros [|(p' & [= <-] & Hgt)]; [done|lia].
  - split; [by left|done].
Qed.

Lemma invoke_decreaseStock (quantity : Z) (p : Product.t) :
  quantity ≤ Product.stock p →
  invoke (Product.decreaseStock quantity) p
  = Ret (Product.set_stock (Product.stock p - quantity) p).
Proof.
  intros Hle. unfold invoke. rewrite decreaseStock_unfold.
  by rewrite bool_decide_false by lia.
Qed.

(** One turn of the loop on an item that is in stock. *)
Lemma run_loop_body_in_stock
  (b : Backend) (item : ItemRequest.t) (order : Order.t) (p : Product.t) :
  products b !! ItemRequest.productId item = Some p →
  ItemRequest.quantity item ≤ Product.stock p →
  let p' := Product.set_stock (Product.stock p - ItemRequest.quantity item) p in
  run backend (CreateOrderUseCase.loop_body item order) b
  = mkRun (set_products (commit_item (products b) item) b)
      [ProductFindById (ItemRequest.productId item); ProductSave p']
      (Returned
         (append_line order
            (OrderItem.mk (Product.id p) (ItemRequest.quantity item)
               (Product.price p)))).
Proof.
  intros Hfind Hle p'. unfold CreateOrderUseCase.loop_body, commit_item.
  simpl. rewrite Hfind. rewrite bool_decide_false by lia.
  rewrite invoke_decreaseStock by lia. simpl.
  reflexivity.
Qed.

(** One turn of the loop on an item that is not. *)
Lemma run_loop_body_rejected
  (b : Backend) (item : ItemRequest.t) (order : Order.t) :
  in_stock (products b) item = false →
  let r := run backend (CreateOrderUseCase.loop_body item order) b in
  final r = b
  ∧ trace r = [ProductFindById (ItemRequest.productId item)]
  ∧ is_thrown (result r).
Proof.
  intros Hout. unfold CreateOrderUseCase.loop_body, in_stock in *. simpl.
  destruct (products b !! ItemRequest.productId item) as [p|]; simpl; [|done].
  apply bool_decide_eq_false in Hout. by rewrite bool_decide_true by lia.
Qed.

Lemma run_loop_in_stock
  (items : list ItemRequest.t) (b : Backend) (order : Order.t) :
  all_in_stock (products b) items = true →
  run backend (for_of items CreateOrderUseCase.loop_body order) b
  = mkRun (set_products (commit_items items (products b)) b)
      (loop_calls (products b) items)
      (Returned (foldl append_line order (lines_of (products b) items))).
Proof.
  revert b order. induction items as [|item items IH]; intros b order Hall.
  - simpl. by rewrite set_products_same.
  - simpl in Hall. apply andb_true_iff in Hall as [Hin Hall].
    apply in_stock_true in Hin as (p & Hfind & Hle).
    rewrite run_for_of_cons.
    rewrite (run_loop_body_in_stock b item order p Hfind Hle). simpl.
    rewrite IH by exact Hall. simpl.
    unfold line_of. rewrite Hfind. simpl. done.
Qed.

(** [execute] is the clock, the loop, and the save of the order when the
    loop returned. *)
Lemma run_execute (b : Backend) (customerId : string) (items : list ItemRequest.t) :
  let loop :=
    run backend
      (for_of items CreateOrderUseCase.loop_body
         (Order.new (pretty (clock b)) customerId Order.pending)) b in
  run backend (CreateOrderUseCase.execute customerId items) b
  = match result loop with
    | Returned order =>
        mkRun
          (set_orders (<[Order.id order := order]> (orders (final loop)))
             (final loop))
          (DateNow :: trace loop ++ [OrderSave order])
          (Returned order)
    | Thrown message => mkRun (final loop) (DateNow :: trace loop) (Thrown message)
    end.
Proof.
  intros loop. unfold CreateOrderUseCase.execute. simpl.
  fold (@mbind Prog _ Order.t Order.t). rewrite run_bind. fold loop.
  destruct (result loop) as [order|message]; simpl; done.
Qed.

(** When every item is in stock at its turn, [execute] returns the order,
    saved, with one line per item, and the repository holds the decremented
    products. *)
Lemma create_order_accepted
  (b : Backend) (customerId : string) (items : list ItemRequest.t) :
  all_in_stock (products b) items = true →
  let order :=
    foldl append_line (Order.new (pretty (clock b)) customerId Order.pending)
      (lines_of (products b) items) in
  run backend (CreateOrderUseCase.execute customerId items) b
  = mkRun
      (set_orders (<[Order.id order := order]> (orders b))
         (set_products (commit_items items (products b)) b))
      (DateNow :: loop_calls (products b) items ++ [OrderSave order])
      (Returned order).
Proof.
  intros Hall order. rewrite run_execute, run_loop_in_stock by exact Hall.
  reflexivity.
Qed.

(** C3. With product p1 at price 10 and stock 5 in the repository, whatever
    else the backend holds, [execute] on the single request (p1, 2) returns
    an order whose only line item is (p1, 2, 10) and whose [totalAmount] is
    20; it saved p1 with stock 3, then the order. *)
Theorem create_order_example (b : Backend) (name customerId : string) :
  products b !! "p1" = Some (Product.mk "p1" name 10 5) →
  let r :=
    run backend
      (CreateOrderUseCase.execute customerId [ItemRequest.mk "p1" 2]) b in
  ∃ order,
    result r = Returned order
    ∧ Order.items order = [OrderItem.mk "p1" 2 10]
    ∧ Order.totalAmount order = 20
    ∧ Order.status order = Order.pending
    ∧ Order.customerId order = customerId
    ∧ trace r = [DateNow; ProductFindById "p1";
                 ProductSave (Product.mk "p1" name 10 3); OrderSave order]
    ∧ products (final r) = <["p1" := Product.mk "p1" name 10 3]> (products b)
    ∧ products (final r) !! "p1" = Some (Product.mk "p1" name 10 3)
    ∧ orders (final r) !! Order.id order = Some order.
Proof.
  intros Hp1 r. unfold r. rewrite create_order_accepted.
  2:{ simpl. unfold in_stock. simpl. by rewrite Hp1. }
  simpl. unfold line_of, commit_items, commit_item. simpl. rewrite Hp1. simpl.
  eexists. split; [reflexivity|].
  repeat (split; [reflexivity|]).
  split; [apply lookup_insert_eq|apply lookup_insert_eq].
Qed.

Lemma create_order_example_witness :
  let b :=
    mkBackend {[ "p1" := Product.mk "p1" "Test Product" 10 5 ]} ∅ [] ∅
      1700000000000 in
  let r :=
    run backend (CreateOrderUseCase.execute "c1" [ItemRequest.mk "p1" 2]) b in
  products b !! "p1" = Some (Product.mk "p1" "Test Product" 10 5)
  ∧ result r
    = Returned
        (Order.mk "1700000000000" "c1" Order.pending [OrderItem.mk "p1" 2 10] 20)
  ∧ products (final r) !! "p1" = Some (Product.mk "p1" "Test Product" 10 3).
Proof.
  intros b r. split; [reflexivity|].
  destruct (create_order_example b "Test Product" "c1" eq_refl)
    as (order & Hres & _ & _ & _ & _ & _ & _ & Hstock & _).
  split; [|exact Hstock]. reflexivity.
Defined.

Lemma loop_calls_no_order_save
  (items : list ItemRequest.t) (m : gmap string Product.t) (order : Order.t) :
  OrderSave order ∉ loop_calls m items.
Proof.
  revert m. induction items as [|x xs IH]; intros m Hin; simpl in Hin.
  - by apply elem_of_nil in Hin.
  - apply elem_of_cons in Hin as [Hin|Hin]; [discriminate|].
    apply elem_of_app in Hin as [Hin|Hin]; [|by apply IH in Hin].
    destruct (m !! ItemRequest.productId x).
    + apply list_elem_of_singleton in Hin. discriminate.
    + by apply elem_of_nil in Hin.
Qed.

(** The loop stops at the first item that is not in stock, with the
    turns before it committed. *)
Lemma run_loop_rejected
  (earlier : list ItemRequest.t) (item : ItemRequest.t)
  (later : list ItemRequest.t) (b : Backend) (order : Order.t) :
  all_in_stock (products b) earlier = true →
  in_stock (commit_items earlier (products b)) item = false →
  let r :=
    run backend
      (for_of (earlier ++ item :: later) CreateOrderUseCase.loop_body order) b in
  final r = set_products (commit_items earlier (products b)) b
  ∧ trace r
    = loop_calls (products b) earlier
      ++ [ProductFindById (ItemRequest.productId item)]
  ∧ is_thrown (result r).
Proof.
  intros Hall Hout r. unfold r.
  rewrite run_for_of_app, run_loop_in_stock by exact Hall.
  cbn [final trace result]. cbv zeta. rewrite run_for_of_cons.
  set (mid := set_products (commit_items earlier (products b)) b).
  set (order' := foldl append_line _ _).
  destruct (run_loop_body_rejected mid item order' Hout) as (Hf & Ht & Hth).
  destruct (run backend (CreateOrderUseCase.loop_body item order') mid)
    as [w tr [o|message]]; cbn [final trace result] in *; [done|].
  by subst.
Qed.

(** C2. Take any list of requests and any item of it whose turn comes,
    the items before it having been in stock.  If, in the repository as
    those turns left it, the product of the item is absent, or its stock is
    exceeded by the requested quantity, then [execute] throws; the order is
    not saved: no call to the order repository is made and the orders it
    holds are those it held; and the products the repository holds are the
    ones the earlier turns saved, their stock decremented: nothing is rolled
    back. *)
Theorem create_order_rejected
  (b : Backend) (customerId : string)
  (earlier : list ItemRequest.t) (item : ItemRequest.t)
  (later : list ItemRequest.t) :
  all_in_stock (products b) earlier = true →
  (commit_items earlier (products b) !! ItemRequest.productId item = None
   ∨ ∃ p,
       commit_items earlier (products b) !! ItemRequest.productId item = Some p
       ∧ ItemRequest.quantity item > Product.stock p) →
  let r :=
    run backend
      (CreateOrderUseCase.execute customerId (earlier ++ item :: later)) b in
  is_thrown (result r)
  ∧ (∀ order, OrderSave order ∉ trace r)
  ∧ orders (final r) = orders b
  ∧ products (final r) = commit_items earlier (products b)
  ∧ trace r
    = DateNow :: loop_calls (products b) earlier
      ++ [ProductFindById (ItemRequest.productId item)].
Proof.
  intros Hall Hout r. apply in_stock_false in Hout.
  assert (Hr : final r = set_products (commit_items earlier (products b)) b
               ∧ trace r = DateNow :: loop_calls (products b) earlier
                           ++ [ProductFindById (ItemRequest.productId item)]
               ∧ is_thrown (result r)).
  { unfold r. rewrite run_execute. cbv zeta.
    destruct (run_loop_rejected earlier item later b
                (Order.new (pretty (clock b)) customerId Order.pending)
                Hall Hout) as (Hf & Ht & Hth).
    destruct (run backend (for_of (earlier ++ item :: later) _ _) b)
      as [w tr [o|message]]; cbn [final trace result] in *; [done|].
    by subst. }
  destruct Hr as (Hf & Ht & Hth).
  split; [exact Hth|]. split.
  { intros order. rewrite Ht. intros Hin.
    apply elem_of_cons in Hin as [Hin|Hin]; [discriminate|].
    apply elem_of_app in Hin as [Hin|Hin].
    - by apply loop_calls_no_order_save in Hin.
    - apply list_elem_of_singleton in Hin. discriminate. }
  rewrite Hf. by repeat split.
Qed.

Lemma create_order_rejected_witness :
  let b :=
    mkBackend
      {[ "p1" := Product.mk "p1" "Pen" 10 5; "p2" := Product.mk "p2" "Ink" 7 1 ]}
      ∅ [] ∅ 1700000000000 in
  let r :=
    run backend
      (CreateOrderUseCase.execute "c1"
         ([ItemRequest.mk "p1" 2] ++ ItemRequest.mk "p2" 4 :: [ItemRequest.mk "p1" 1]))
      b in
  is_thrown (result r)
  ∧ (∀ order, OrderSave order ∉ trace r)
  ∧ orders (final r) = ∅
  ∧ products (final r) !! "p1" = Some (Product.mk "p1" "Pen" 10 3)
  ∧ products (final r) !! "p2" = Some (Product.mk "p2" "Ink" 7 1).
Proof.
  intros b r.
  destruct (create_order_rejected b "c1"
              [ItemRequest.mk "p1" 2] (ItemRequest.mk "p2" 4) [ItemRequest.mk "p1" 1])
    as (Hth & Hnosave & Horders & Hproducts & _).
  - reflexivity.
  - right. exists (Product.mk "p2" "Ink" 7 1). split; [reflexivity|simpl; lia].
  - split; [exact Hth|]. split; [exact Hnosave|]. split; [exact Horders|].
    fold r in Hproducts. rewrite Hproducts. split; reflexivity.
Defined.

(** Every list of requests either is in stock throughout or has a first
    item that is not: the case of C2 is the only way the loop fails. *)
Lemma first_rejected (items : list ItemRequest.t) (m : gmap string Product.t) :
  all_in_stock m items = false →
  ∃ earlier item later,
    items = earlier ++ item :: later
    ∧ all_in_stock m earlier = true
    ∧ in_stock (commit_items earlier m) item = false.
Proof.
  revert m. induction items as [|x xs IH]; intros m Hall; [done|].
  simpl in Hall. destruct (in_stock m x) eqn:Hx; simpl in Hall.
  - destruct (IH _ Hall) as (earlier & item & later & -> & Hearlier & Hitem).
    exists (x :: earlier), item, later. repeat split; [|done].
    simpl. by rewrite Hx.
  - by exists [], x, xs.
Qed.

Lemma create_order_returns_iff
  (b : Backend) (customerId : string) (items : list ItemRequest.t) :
  is_thrown (result (run backend (CreateOrderUseCase.execute customerId items) b))
  ↔ all_in_stock (products b) items = false.
Proof.
  destruct (all_in_stock (products b) items) eqn:Hall.
  - rewrite create_order_accepted by exact Hall. simpl. split; [tauto|done].
  - split; [done|]. intros _.
    destruct (first_rejected _ _ Hall) as (earlier & item & later & -> & He & Hi).
    rewrite run_execute. cbv zeta.
    destruct (run_loop_rejected earlier item later b
                (Order.new (pretty (clock b)) customerId Order.pending) He Hi)
      as (_ & _ & Hth).
    by destruct (result (run backend (for_of (earlier ++ item :: later) _ _) b)).
Qed.

(** When the repository files every product under its own id and no
    quantity is negative, the loop only takes stock away, and the stock held
    before the call decides: an item that is absent or exceeds it makes the
    list fail. *)

Lemma commit_item_keyed (m : gmap string Product.t) (item : ItemRequest.t) :
  keyed_by_id m → keyed_by_id (commit_item m item).
Proof.
  intros Hk k p. unfold commit_item.
  destruct (m !! ItemRequest.productId item) as [p0|] eqn:Hp0; [|apply Hk].
  rewrite lookup_insert. case_decide as Hid; [|apply Hk].
  intros [= <-]. exact Hid.
Qed.

Lemma commit_item_shrinks
  (m : gmap string Product.t) (x item : ItemRequest.t) :
  keyed_by_id m →
  0 ≤ ItemRequest.quantity x →
  in_stock m item = false →
  in_stock (commit_item m x) item = false.
Proof.
  intros Hk Hq. rewrite !in_stock_false. unfold commit_item.
  destruct (m !! ItemRequest.productId x) as [p0|] eqn:Hp0; [|done].
  pose proof (Hk _ _ Hp0) as Hid0. rewrite lookup_insert, Hid0.
  case_decide as Heq.
  - rewrite <- Heq, Hp0. intros [|(p & [= <-] & Hgt)]; [done|].
    right. eexists; split; [reflexivity|]. simpl. lia.
  - done.
Qed.

Lemma rejected_upfront (items : list ItemRequest.t) (m : gmap string Product.t)
  (item : ItemRequest.t) :
  keyed_by_id m →
  Forall (λ x, 0 ≤ ItemRequest.quantity x) items →
  item ∈ items →
  in_stock m item = false →
  all_in_stock m items = false.
Proof.
  revert m. induction items as [|x xs IH]; intros m Hk Hq Hin Hout.
  - by apply elem_of_nil in Hin.
  - apply Forall_cons in Hq as [Hqx Hq]. simpl.
    apply elem_of_cons in Hin as [->|Hin]; [by rewrite Hout|].
    destruct (in_stock m x); [simpl|done].
    apply IH; [by apply commit_item_keyed|done|done|by apply commit_item_shrinks].
Qed.

(** * Further properties *)

(** ** Product: stock arithmetic *)

Lemma increaseStock_unfold (quantity : Z) (this : Product.t) :
  Product.increaseStock quantity this
  = (Product.set_stock (Product.stock this + quantity) this, Returned tt).
Proof. reflexivity. Qed.

Lemma set_stock_set_stock (v w : Z) (this : Product.t) :
  Product.set_stock v (Product.set_stock w this) = Product.set_stock v this.
Proof. reflexivity. Qed.

Lemma set_stock_same (v : Z) (this : Product.t) :
  v = Product.stock this → Product.set_stock v this = this.
Proof. intros ->. by destruct this. Qed.

(** X1. [decreaseStock] has no guard on the sign of the quantity, and still
    never leaves a negative stock: for an integer stock and an integer
    quantity, of either sign, a call that returns leaves a stock that is
    not negative, and a call that throws leaves the product as it found it.
    So a stock that is not negative stays so across any such call. *)
Theorem decreaseStock_never_negative (this : Product.t) (quantity : Z) :
  let this' := after (Product.decreaseStock quantity) this in
  (snd (Product.decreaseStock quantity this) = Returned tt →
   0 ≤ Product.stock this')
  ∧ (is_thrown (snd (Product.decreaseStock quantity this)) → this' = this)
  ∧ (0 ≤ Product.stock this → 0 ≤ Product.stock this').
Proof.
  unfold after. rewrite decreaseStock_unfold.
  case_bool_decide; simpl; repeat split; intros; try done; lia.
Qed.

Lemma decrease_increase_aux (this : Product.t) (quantity : Z) :
  quantity ≤ Product.stock this →
  (Product.decreaseStock quantity;; Product.increaseStock quantity) this
  = (this, Returned tt).
Proof.
  intros Hle. method_steps. fold (Product.decreaseStock quantity this).
  rewrite decreaseStock_unfold, bool_decide_false by lia.
  fold (Product.increaseStock quantity). rewrite increaseStock_unfold.
  rewrite set_stock_set_stock, set_stock_same; [done|simpl; lia].
Qed.

(** X2. Within the safe integers, taking a quantity off the stock and
    putting it back restores the product: for an integer quantity from zero
    up to the stock, the stock being at most [max_safe_integer]. *)
Theorem decrease_then_increase (this : Product.t) (quantity : Z) :
  0 ≤ quantity →
  quantity ≤ Product.stock this →
  Product.stock this ≤ max_safe_integer →
  (Product.decreaseStock quantity;; Product.increaseStock quantity) this
  = (this, Returned tt).
Proof. intros _ Hle _. by apply decrease_increase_aux. Qed.

Lemma decrease_then_increase_witness :
  let this := Product.mk "1" "Test Product" 10 5 in
  0 ≤ 3 ∧ 3 ≤ Product.stock this ∧ Product.stock this ≤ max_safe_integer
  ∧ (Product.decreaseStock 3;; Product.increaseStock 3) this = (this, Returned tt).
Proof.
  intros this. split; [lia|]. split; [simpl; lia|].
  split; [by vm_compute|].
  apply (decrease_then_increase this 3); [lia|simpl; lia|by vm_compute].
Defined.

Lemma increase_decrease_aux (this : Product.t) (quantity : Z) :
  (Product.increaseStock quantity;; Product.decreaseStock quantity) this
  = if bool_decide (Product.stock this < 0)
    then (Product.set_stock (Product.stock this + quantity) this,
          Thrown "Stock insuficiente")
    else (this, Returned tt).
Proof.
  method_steps. fold (Product.increaseStock quantity this).
  rewrite increaseStock_unfold.
  fold (Product.decreaseStock quantity). rewrite decreaseStock_unfold. simpl.
  case_bool_decide.
  - by rewrite bool_decide_true by lia.
  - rewrite bool_decide_false by lia.
    rewrite set_stock_set_stock, set_stock_same; [done|lia].
Qed.

(** X3. Within the safe integers (stock, quantity and their sum), adding a
    quantity that is not negative to the stock and taking it off again
    restores the product when its stock was not negative; on a negative
    stock the second call throws and the product keeps the increased
    stock. *)
Theorem increase_then_decrease (this : Product.t) (quantity : Z) :
  0 ≤ quantity →
  safe_integer quantity →
  safe_integer (Product.stock this) →
  safe_integer (Product.stock this + quantity) →
  (0 ≤ Product.stock this →
   (Product.increaseStock quantity;; Product.decreaseStock quantity) this
   = (this, Returned tt))
  ∧ (Product.stock this < 0 →
     (Product.increaseStock quantity;; Product.decreaseStock quantity) this
     = (Product.set_stock (Product.stock this + quantity) this,
        Thrown "Stock insuficiente")).
Proof.
  intros _ _ _ _. rewrite increase_decrease_aux.
  split; intros Hs; [by rewrite bool_decide_false by lia
                    |by rewrite bool_decide_true by lia].
Qed.

Lemma increase_then_decrease_witness :
  let this := Product.mk "1" "Test Product" 10 5 in
  0 ≤ 3 ∧ safe_integer 3 ∧ safe_integer (Product.stock this)
  ∧ safe_integer (Product.stock this + 3)
  ∧ (Product.increaseStock 3;; Product.decreaseStock 3) this = (this, Returned tt).
Proof.
  intros this.
  assert (H3 : safe_integer 3) by (by vm_compute).
  assert (Hs : safe_integer (Product.stock this)) by (by vm_compute).
  assert (Hsum : safe_integer (Product.stock this + 3)) by (by vm_compute).
  split; [lia|]. split; [exact H3|]. split; [exact Hs|]. split; [exact Hsum|].
  destruct (increase_then_decrease this 3) as [Hok _]; [lia|done|done|done|].
  apply Hok. simpl. lia.
Defined.

(** X4. Within the safe integers, two decrements in a row end like the
    decrement of the sum: for integer quantities that are not negative and
    whose sum is at most [max_safe_integer], they return or throw together,
    and when the sum is within the stock they leave the same product. *)
Theorem decrease_twice (this : Product.t) (q1 q2 : Z) :
  0 ≤ q1 →
  0 ≤ q2 →
  q1 + q2 ≤ max_safe_integer →
  safe_integer (Product.stock this) →
  snd ((Product.decreaseStock q1;; Product.decreaseStock q2) this)
  = snd (Product.decreaseStock (q1 + q2) this)
  ∧ (q1 + q2 ≤ Product.stock this →
     (Product.decreaseStock q1;; Product.decreaseStock q2) this
     = Product.decreaseStock (q1 + q2) this).
Proof.
  intros _ Hq2 _ _. method_steps. fold (Product.decreaseStock q1 this).
  fold (Product.decreaseStock q2).
  rewrite !decreaseStock_unfold.
  destruct (bool_decide (q1 > Product.stock this)) eqn:H1.
  - apply bool_decide_eq_true in H1.
    rewrite (bool_decide_true (q1 + q2 > _)) by lia. split; [done|lia].
  - apply bool_decide_eq_false in H1. rewrite decreaseStock_unfold. simpl.
    destruct (bool_decide (q1 + q2 > Product.stock this)) eqn:H2.
    + apply bool_decide_eq_true in H2. rewrite bool_decide_true by lia.
      split; [done|lia].
    + apply bool_decide_eq_false in H2. rewrite bool_decide_false by lia.
      rewrite set_stock_set_stock. split; [done|]. intros _.
      do 2 f_equal. lia.
Qed.

Lemma decrease_twice_witness :
  let this := Product.mk "1" "Test Product" 10 5 in
  0 ≤ 2 ∧ 0 ≤ 3 ∧ 2 + 3 ≤ max_safe_integer ∧ safe_integer (Product.stock this)
  ∧ (Product.decreaseStock 2;; Product.decreaseStock 3) this
    = (Product.mk "1" "Test Product" 10 0, Returned tt)
  ∧ snd ((Product.decreaseStock 3;; Product.decreaseStock 3) this)
    = Thrown "Stock insuficiente".
Proof.
  intros this.
  assert (Hs : safe_integer (Product.stock this)) by (by vm_compute).
  assert (H5 : 2 + 3 ≤ max_safe_integer) by (by vm_compute).
  assert (H6 : 3 + 3 ≤ max_safe_integer) by (by vm_compute).
  split; [lia|]. split; [lia|]. split; [exact H5|]. split; [exact Hs|]. split.
  - destruct (decrease_twice this 2 3) as [_ Heq]; [lia|lia|done|done|].
    rewrite Heq by (simpl; lia). reflexivity.
  - destruct (decrease_twice this 3 3) as [Hsnd _]; [lia|lia|done|done|].
    rewrite Hsnd. reflexivity.
Defined.

(** ** Order: status calls in sequence *)

Lemma set_status_same (s : Order.Status) (this : Order.t) :
  s = Order.status this → Order.set_status s this = this.
Proof. intros ->. by destruct this. Qed.

Lemma after_status_call (c : StatusCall) (this : Order.t) :
  after (status_call c) this
  = match c, Order.status this with
    | Process, Order.pending => Order.set_status Order.processing this
    | Complete, Order.processing => Order.set_status Order.completed this
    | Cancel, (Order.pending | Order.processing | Order.cancelled) =>
        Order.set_status Order.cancelled this
    | _, _ => this
    end.
Proof.
  unfold after. destruct c; simpl;
    rewrite ?process_unfold, ?complete_unfold, ?cancel_unfold;
    by destruct (Order.status this).
Qed.

Lemma status_attempts_cons (c : StatusCall) (cs : list StatusCall) (this : Order.t) :
  status_attempts (c :: cs) this = status_attempts cs (after (status_call c) this).
Proof. reflexivity. Qed.

Lemma final_statuses_absorb_aux (this : Order.t) (cs : list StatusCall) :
  Order.status this = Order.completed ∨ Order.status this = Order.cancelled →
  status_attempts cs this = this.
Proof.
  induction cs as [|c cs IH]; intros Hs; [done|].
  rewrite status_attempts_cons, after_status_call.
  destruct Hs as [Hs|Hs]; rewrite Hs; destruct c;
    rewrite ?(set_status_same Order.cancelled) by done; apply IH; auto.
Qed.

(** X5. Completed and cancelled are final: on an order in either status,
    whatever status calls are attempted, in whatever number and order, the
    order stays exactly as it was. *)
Theorem final_statuses_absorb (this : Order.t) (cs : list StatusCall) :
  Order.status this = Order.completed ∨ Order.status this = Order.cancelled →
  status_attempts cs this = this.
Proof. apply final_statuses_absorb_aux. Qed.

Lemma final_statuses_absorb_witness :
  let this :=
    Order.mk "1700000000000" "c1" Order.completed [OrderItem.mk "p1" 2 10] 20 in
  (Order.status this = Order.completed ∨ Order.status this = Order.cancelled)
  ∧ status_attempts [Cancel; Process; Complete; Cancel] this = this.
Proof.
  intros this. split; [by left|].
  apply (final_statuses_absorb this [Cancel; Process; Complete; Cancel]). by left.
Defined.

Lemma status_attempts_not_pending (cs : list StatusCall) (this : Order.t) :
  Order.status this ≠ Order.pending →
  Order.status (status_attempts cs this) ≠ Order.pending.
Proof.
  revert this. induction cs as [|c cs IH]; intros this Hs; [done|].
  rewrite status_attempts_cons. apply IH. rewrite after_status_call.
  destruct c, (Order.status this) eqn:E; simpl; congruence.
Qed.

(** X6. No status call leads back: once [process] has returned on an order,
    every later [process] throws, whatever status calls were attempted in
    between; and the same for [complete]. *)
Theorem process_and_complete_return_once (this : Order.t) (cs : list StatusCall) :
  (snd (Order.process this) = Returned tt →
   is_thrown (snd (Order.process (status_attempts cs (after Order.process this)))))
  ∧ (snd (Order.complete this) = Returned tt →
     is_thrown
       (snd (Order.complete (status_attempts cs (after Order.complete this))))).
Proof.
  split.
  - rewrite (process_unfold this). unfold after. rewrite (process_unfold this).
    case_bool_decide; simpl; [done|]. intros _.
    rewrite process_unfold, bool_decide_true; [done|].
    by apply status_attempts_not_pending.
  - rewrite (complete_unfold this). unfold after. rewrite (complete_unfold this).
    case_bool_decide; simpl; [done|]. intros _.
    rewrite final_statuses_absorb_aux by (by left).
    by rewrite complete_unfold.
Qed.

(** ** Order: line items and status together *)

(** X7. Status calls and item calls do not meet.  A status call, returned
    or thrown, leaves the id, the customer, the line items and the total as
    they were; [addItem] and [removeItem] are not guarded by the status:
    they return in every status, a completed or cancelled order included,
    and leave status, id and customer as they were. *)
Theorem status_and_items_independent
  (this : Order.t) (c : StatusCall) (ic : ItemCall) :
  (let this' := after (status_call c) this in
   Order.id this' = Order.id this
   ∧ Order.customerId this' = Order.customerId this
   ∧ Order.items this' = Order.items this
   ∧ Order.totalAmount this' = Order.totalAmount this)
  ∧ (∃ this',
       item_call ic this = (this', Returned tt)
       ∧ Order.status this' = Order.status this
       ∧ Order.id this' = Order.id this
       ∧ Order.customerId this' = Order.customerId this).
Proof.
  split.
  - rewrite after_status_call. by destruct c, (Order.status this).
  - destruct ic; simpl; rewrite ?addItem_unfold, ?removeItem_unfold;
      eexists; split; reflexivity || done.
Qed.


Lemma removeItem_twice_aux (p q : string) (this : Order.t) :
  (Order.removeItem p;; Order.removeItem q) this
  = (let kept :=
       filter (λ item, OrderItem.productId item ≠ q ∧ OrderItem.productId item ≠ p)
         (Order.items this) in
     (Order.set_totalAmount (sum_of_lines kept) (Order.set_items kept this),
      Returned tt)).
Proof.
  method_steps. fold (Order.removeItem p this). fold (Order.removeItem q).
  rewrite (removeItem_unfold p this). cbv zeta.
  rewrite removeItem_unfold. simpl.
  by rewrite list_filter_filter.
Qed.

(** X9. Removing a product twice is removing it once, and removals of two
    products can be made in either order. *)
Theorem removeItem_idempotent_commutes (this : Order.t) (p q : string) :
  (Order.removeItem p;; Order.removeItem p) this = Order.removeItem p this
  ∧ (Order.removeItem p;; Order.removeItem q) this
    = (Order.removeItem q;; Order.removeItem p) this.
Proof.
  rewrite !removeItem_twice_aux, removeItem_unfold. cbv zeta. split.
  - rewrite (list_filter_iff _ (λ item, OrderItem.productId item ≠ p)); [done|].
    intros item. tauto.
  - rewrite (list_filter_iff _
               (λ item, OrderItem.productId item ≠ p ∧ OrderItem.productId item ≠ q));
      [done|].
    intros item. tauto.
Qed.


Lemma sum_of_lines_filter (k : string) (items : list OrderItem.t) :
  sum_of_lines items
  = sum_of_lines (filter (λ item, OrderItem.productId item ≠ k) items)
    + lines_for k items.
Proof.
  unfold lines_for. induction items as [|item items IH]; [done|].
  rewrite sum_of_lines_cons, IH.
  destruct (decide (OrderItem.productId item = k)) as [Hk|Hk].
  - rewrite filter_cons_False by tauto.
    rewrite (filter_cons_True (λ i, OrderItem.productId i = k)) by done.
    rewrite sum_of_lines_cons. lia.
  - rewrite filter_cons_True by done.
    rewrite (filter_cons_False (λ i, OrderItem.productId i = k)) by done.
    rewrite sum_of_lines_cons. lia.
Qed.

(** X11. Within the safe integers, [removeItem] lowers the total by the
    amount of the lines of the product, all of them, and by nothing else:
    on an order whose total is the sum of its lines and at most
    [max_safe_integer], the quantities and prices being integers that are
    not negative. *)
Theorem removeItem_lowers_total (this : Order.t) (k : string) :
  consistent this →
  Forall (λ l, 0 ≤ OrderItem.quantity l ∧ 0 ≤ OrderItem.price l)
    (Order.items this) →
  Order.totalAmount this ≤ max_safe_integer →
  Order.totalAmount (after (Order.removeItem k) this)
  = Order.totalAmount this - lines_for k (Order.items this).
Proof.
  intros Hc _ _. unfold after. rewrite removeItem_unfold. simpl.
  rewrite Hc, (sum_of_lines_filter k (Order.items this)). lia.
Qed.

Lemma removeItem_lowers_total_witness :
  let this :=
    Order.mk "1700000000000" "c1" Order.pending
      [OrderItem.mk "p1" 2 10; OrderItem.mk "p2" 1 5; OrderItem.mk "p1" 3 10] 55 in
  consistent this
  ∧ Forall (λ l, 0 ≤ OrderItem.quantity l ∧ 0 ≤ OrderItem.price l)
      (Order.items this)
  ∧ Order.totalAmount this ≤ max_safe_integer
  ∧ Order.totalAmount (after (Order.removeItem "p1") this) = 55 - 50.
Proof.
  intros this.
  assert (Hpos : Forall (λ l, 0 ≤ OrderItem.quantity l ∧ 0 ≤ OrderItem.price l)
                   (Order.items this)).
  { repeat constructor; simpl; lia. }
  assert (Hmax : Order.totalAmount this ≤ max_safe_integer) by (by vm_compute).
  split; [reflexivity|]. split; [exact Hpos|]. split; [exact Hmax|].
  apply (removeItem_lowers_total this "p1"); [reflexivity|exact Hpos|exact Hmax].
Defined.

(** ** Money: the factory and the sum *)

Lemma money_create_unfold (amount : Z) (currency : string) :
  0 ≤ amount → js_length currency = 3%nat →
  Money.create amount currency = Returned (Money.mk amount currency).
Proof.
  intros Ha Hc. unfold Money.create.
  rewrite bool_decide_false by lia. by rewrite bool_decide_false by (rewrite Hc; auto).
Qed.

(** The length of the source counts UTF-16 code units, not bytes: a code of
    three characters with a euro sign (five bytes) is accepted, the euro
    sign alone (three bytes) is not, and a password of seven characters is
    too short though it takes eight bytes. *)
Example lengths_are_in_code_units :
  js_length "U€D" = 3%nat
  ∧ Money.create 5 "U€D" = Returned (Money.mk 5 "U€D")
  ∧ js_length "€" = 1%nat
  ∧ is_thrown (Money.create 5 "€")
  ∧ js_length "señor12" = 7%nat
  ∧ is_thrown (Password.create "señor12")
  ∧ js_length "😀" = 2%nat.
Proof. repeat split; reflexivity || exact I. Qed.

(** X12. [Money.create] throws exactly when the amount is below zero or
    the length of the currency is not three; otherwise it returns a value
    that gives back, through [getAmount] and [getCurrency], the amount and
    the currency it was built from. *)
Theorem money_create_round_trip (amount : Z) (currency : string) :
  (is_thrown (Money.create amount currency)
   ↔ amount < 0 ∨ js_length currency ≠ 3%nat)
  ∧ (∀ m, Money.create amount currency = Returned m →
          Money.getAmount m = amount ∧ Money.getCurrency m = currency).
Proof.
  unfold Money.create.
  case_bool_decide as Ha; [|case_bool_decide as Hc]; simpl.
  - split; [tauto|done].
  - split; [tauto|done].
  - split; [|by intros m [= <-]].
    split; [done|]. intros [?|?]; [lia|done].
Qed.

(** X13. The sum of two values of the same currency that [Money.create]
    lets through returns: its amount is the sum of the amounts, its currency
    theirs, and [Money.create] lets it through as well. *)
Theorem money_add_valid (this other : Money.t) :
  money_valid this → money_valid other →
  Money.currency this = Money.currency other →
  ∃ m, Money.add this other = Returned m
       ∧ Money.getAmount m = Money.getAmount this + Money.getAmount other
       ∧ Money.getCurrency m = Money.getCurrency this
       ∧ money_valid m.
Proof.
  intros [Ha Hc] [Hb _] Heq. unfold Money.add.
  rewrite bool_decide_false by (by intros ?).
  rewrite money_create_unfold by (done || lia).
  eexists; split; [reflexivity|]. unfold money_valid. simpl.
  repeat split; [lia|done].
Qed.

Lemma money_add_valid_witness :
  let a := Money.mk 5 "USD" in
  let b := Money.mk 7 "USD" in
  money_valid a ∧ money_valid b
  ∧ ∃ m, Money.add a b = Returned m
         ∧ Money.getAmount m = Money.getAmount a + Money.getAmount b
         ∧ Money.getCurrency m = Money.getCurrency a
         ∧ money_valid m.
Proof.
  intros a b.
  assert (Ha : money_valid a) by (split; [simpl; lia|reflexivity]).
  assert (Hb : money_valid b) by (split; [simpl; lia|reflexivity]).
  split; [exact Ha|]. split; [exact Hb|].
  exact (money_add_valid a b Ha Hb eq_refl).
Defined.

(** X14. The sum does not depend on which value is the receiver: [a.add(b)]
    and [b.add(a)] return the same value or throw the same exception. *)
Theorem money_add_commutative (this other : Money.t) :
  Money.add this other = Money.add other this.
Proof.
  unfold Money.add.
  destruct (decide (Money.currency this = Money.currency other)) as [Heq|Hne].
  - rewrite !bool_decide_false by (intros ?; congruence).
    by rewrite Heq, Z.add_comm.
  - by rewrite !bool_decide_true by congruence.
Qed.

(** X15. Within the safe integers, sums associate: on values that
    [Money.create] lets through, with integer amounts whose sum is at most
    [max_safe_integer], [a.add(b).add(c)] and [a.add(b.add(c))] return the
    same value or throw the same exception, whatever the three
    currencies. *)
Theorem money_add_associative (a b c : Money.t) :
  money_valid a → money_valid b → money_valid c →
  Money.amount a + Money.amount b + Money.amount c ≤ max_safe_integer →
  Money.add_created (Money.add a b) (Returned c)
  = Money.add_created (Returned a) (Money.add b c).
Proof.
  intros [Ha Hca] [Hb Hcb] [Hc Hcc] _. unfold Money.add.
  destruct (decide (Money.currency a = Money.currency b)) as [Hab|Hab];
    destruct (decide (Money.currency b = Money.currency c)) as [Hbc|Hbc].
  - rewrite !bool_decide_false by (intros ?; congruence).
    rewrite !money_create_unfold by (done || lia). simpl. unfold Money.add. simpl.
    rewrite !bool_decide_false by (intros ?; congruence).
    by rewrite Z.add_assoc.
  - rewrite (bool_decide_false (Money.currency a ≠ _)) by (intros ?; congruence).
    rewrite (bool_decide_true (Money.currency b ≠ _)) by done.
    rewrite money_create_unfold by (done || lia). simpl. unfold Money.add. simpl.
    by rewrite bool_decide_true by congruence.
  - rewrite (bool_decide_true (Money.currency a ≠ _)) by done.
    rewrite (bool_decide_false (Money.currency b ≠ _)) by (intros ?; congruence).
    rewrite money_create_unfold by (done || lia). simpl. unfold Money.add. simpl.
    by rewrite bool_decide_true by done.
  - by rewrite !bool_decide_true by done.
Qed.

Lemma money_add_associative_witness :
  let a := Money.mk 5 "USD" in
  let b := Money.mk 7 "USD" in
  let c := Money.mk 1 "EUR" in
  money_valid a ∧ money_valid b ∧ money_valid c
  ∧ Money.amount a + Money.amount b + Money.amount c ≤ max_safe_integer
  ∧ Money.add_created (Money.add a b) (Returned c)
    = Money.add_created (Returned a) (Money.add b c)
  ∧ Money.add_created (Returned a) (Money.add b c)
    = Thrown "No se pueden sumar montos de diferentes monedas".
Proof.
  intros a b c.
  assert (Ha : money_valid a) by (split; [simpl; lia|reflexivity]).
  assert (Hb : money_valid b) by (split; [simpl; lia|reflexivity]).
  assert (Hc : money_valid c) by (split; [simpl; lia|reflexivity]).
  assert (Hsum : Money.amount a + Money.amount b + Money.amount c
                 ≤ max_safe_integer) by (by vm_compute).
  repeat (split; [assumption|]).
  split; [exact (money_add_associative a b c Ha Hb Hc Hsum)|reflexivity].
Defined.

(** ** Authentication *)

(** X16. [AuthenticateUserUseCase.execute] adds nothing to what the
    interfaces answer, whatever implements them.  When the lookup returns a
    user, [authenticate] is called once, with the email and the password
    given to [execute], and its token or its exception is the result; when
    the lookup itself throws, that exception is the result and
    [authenticate] is not called. *)
Theorem authenticate_delegates
  {W} (h : Handler W) (w : W) (email password : string) :
  let r := run h (AuthenticateUserUseCase.execute email password) w in
  match h (UserFindByEmail email) w with
  | (w', Returned (Some _)) =>
      trace r = [UserFindByEmail email; AuthAuthenticate email password]
      ∧ final r = fst (h (AuthAuthenticate email password) w')
      ∧ result r = snd (h (AuthAuthenticate email password) w')
  | (w', Returned None) =>
      r = mkRun w' [UserFindByEmail email] (Thrown "Usuario no encontrado")
  | (w', Thrown message) =>
      r = mkRun w' [UserFindByEmail email] (Thrown message)
  end.
Proof.
  simpl. destruct (h (UserFindByEmail email) w) as [w' [[u|]|message]]; simpl;
    [|done|done].
  by destruct (h (AuthAuthenticate email password) w') as [w'' [token|message]].
Qed.

(** X17. With the [Password] value object, the password is checked after
    the lookup and before the service: for an unknown email the exception is
    "Usuario no encontrado", however short the password; for a known one, a
    password of fewer than eight characters throws the exception of
    [Password.create] and [authenticate] is not called; a password of eight
    characters or more reaches [authenticate] unchanged. *)
Theorem password_checked_after_lookup
  {W} (h : Handler W) (w : W) (email password : string) :
  let r := run h (AuthenticateUserUseCaseWithPassword.execute email password) w in
  match h (UserFindByEmail email) w with
  | (w', Returned (Some _)) =>
      if bool_decide (js_length password < 8)%nat
      then r = mkRun w' [UserFindByEmail email]
                 (Thrown "La contraseña debe tener al menos 8 caracteres")
      else trace r = [UserFindByEmail email; AuthAuthenticate email password]
           ∧ final r = fst (h (AuthAuthenticate email password) w')
           ∧ result r = snd (h (AuthAuthenticate email password) w')
  | (w', Returned None) =>
      r = mkRun w' [UserFindByEmail email] (Thrown "Usuario no encontrado")
  | (w', Thrown message) =>
      r = mkRun w' [UserFindByEmail email] (Thrown message)
  end.
Proof.
  simpl. destruct (h (UserFindByEmail email) w) as [w' [[u|]|message]]; simpl;
    [|done|done].
  unfold Password.create. case_bool_decide; simpl; [done|].
  by destruct (h (AuthAuthenticate email password) w') as [w'' [token|message]].
Qed.

(** ** CreateProductUseCase *)

(** X18. [CreateProductUseCase.execute] validates nothing: for every name,
    price and stock, negative ones included, it returns a product with these
    fields whose id is the clock in decimal, and has saved it.  On the
    in-memory backend the product is then found under its id, replacing
    whatever was filed there, and every other product and every order is as
    before. *)
Theorem create_product_saved (b : Backend) (name : string) (price stock : Z) :
  let r := run backend (CreateProductUseCase.execute name price stock) b in
  let product := Product.mk (pretty (clock b)) name price stock in
  result r = Returned product
  ∧ trace r = [DateNow; ProductSave product]
  ∧ fst (backend (ProductFindById (Product.id product)) (final r)) = final r
  ∧ snd (backend (ProductFindById (Product.id product)) (final r))
    = Returned (Some product)
  ∧ (∀ k, k ≠ Product.id product → products (final r) !! k = products b !! k)
  ∧ orders (final r) = orders b.
Proof.
  simpl. repeat split.
  - by rewrite lookup_insert_eq.
  - intros k Hk. by rewrite lookup_insert_ne.
Qed.

(** ** CreateOrderUseCase: further properties *)

Lemma create_order_single
  (b : Backend) (customerId : string) (item : ItemRequest.t) (p : Product.t) :
  products b !! ItemRequest.productId item = Some p →
  ItemRequest.quantity item ≤ Product.stock p →
  let r := run backend (CreateOrderUseCase.execute customerId [item]) b in
  ∃ order,
    result r = Returned order
    ∧ Order.items order
      = [OrderItem.mk (Product.id p) (ItemRequest.quantity item) (Product.price p)]
    ∧ Order.totalAmount order = ItemRequest.quantity item * Product.price p
    ∧ products (final r) !! Product.id p
      = Some (Product.set_stock (Product.stock p - ItemRequest.quantity item) p)
    ∧ orders (final r) !! Order.id order = Some order.
Proof.
  intros Hfind Hle r. unfold r. rewrite create_order_accepted.
  2:{ simpl. unfold in_stock. rewrite Hfind.
      by rewrite bool_decide_true. }
  simpl lines_of. unfold line_of, commit_items. simpl foldl.
  unfold commit_item. rewrite Hfind.
  eexists. split; [reflexivity|]. simpl.
  split; [done|]. split; [lia|]. split; by rewrite lookup_insert_eq.
Qed.

(** X19. A product made by [CreateProductUseCase.execute] can be ordered
    from the same backend up to its stock: the order has the one line of
    that product at the price it was created with, and the product is left
    with the stock it was created with less the quantity. *)
Theorem created_product_can_be_ordered
  (b : Backend) (name customerId : string) (price stock quantity : Z) :
  quantity ≤ stock →
  let created := run backend (CreateProductUseCase.execute name price stock) b in
  let id := pretty (clock b) in
  let r :=
    run backend
      (CreateOrderUseCase.execute customerId [ItemRequest.mk id quantity])
      (final created) in
  ∃ order,
    result r = Returned order
    ∧ Order.items order = [OrderItem.mk id quantity price]
    ∧ Order.totalAmount order = quantity * price
    ∧ products (final r) !! id = Some (Product.mk id name price (stock - quantity))
    ∧ orders (final r) !! Order.id order = Some order.
Proof.
  intros Hle created id r.
  apply (create_order_single (final created) customerId
           (ItemRequest.mk id quantity) (Product.mk id name price stock)).
  - simpl. by rewrite lookup_insert_eq.
  - exact Hle.
Qed.

Lemma created_product_can_be_ordered_witness :
  let b := mkBackend ∅ ∅ [] ∅ 1700000000000 in
  let created := run backend (CreateProductUseCase.execute "Pen" 10 5) b in
  let r :=
    run backend
      (CreateOrderUseCase.execute "c1" [ItemRequest.mk "1700000000000" 2])
      (final created) in
  2 ≤ 5
  ∧ ∃ order,
      result r = Returned order
      ∧ Order.items order = [OrderItem.mk "1700000000000" 2 10]
      ∧ Order.totalAmount order = 2 * 10
      ∧ products (final r) !! "1700000000000"
        = Some (Product.mk "1700000000000" "Pen" 10 (5 - 2))
      ∧ orders (final r) !! Order.id order = Some order.
Proof.
  intros b created r. split; [lia|].
  apply (created_product_can_be_ordered b "Pen" "c1" 10 5 2). lia.
Defined.

Lemma run_loop_body_message
  (b : Backend) (item : ItemRequest.t) (order : Order.t) :
  result (run backend (CreateOrderUseCase.loop_body item order) b)
  = match products b !! ItemRequest.productId item with
    | None =>
        Thrown ("Producto " +:+ ItemRequest.productId item +:+ " no encontrado")
    | Some p =>
        if bool_decide (Product.stock p < ItemRequest.quantity item)
        then Thrown ("Stock insuficiente para el producto " +:+ Product.name p)
        else Returned
               (append_line order
                  (OrderItem.mk (Product.id p) (ItemRequest.quantity item)
                     (Product.price p)))
    end.
Proof.
  destruct (products b !! ItemRequest.productId item) as [p|] eqn:Hfind.
  - case_bool_decide as Hlt.
    + unfold CreateOrderUseCase.loop_body. simpl. rewrite Hfind. simpl.
      by rewrite bool_decide_true.
    + by rewrite (run_loop_body_in_stock b item order p Hfind) by lia.
  - unfold CreateOrderUseCase.loop_body. simpl. by rewrite Hfind.
Qed.

Lemma run_execute_rejected_message
  (b : Backend) (customerId : string)
  (earlier : list ItemRequest.t) (item : ItemRequest.t)
  (later : list ItemRequest.t) :
  all_in_stock (products b) earlier = true →
  in_stock (commit_items earlier (products b)) item = false →
  result
    (run backend
       (CreateOrderUseCase.execute customerId (earlier ++ item :: later)) b)
  = match commit_items earlier (products b) !! ItemRequest.productId item with
    | None =>
        Thrown ("Producto " +:+ ItemRequest.productId item +:+ " no encontrado")
    | Some p =>
        Thrown ("Stock insuficiente para el producto " +:+ Product.name p)
    end.
Proof.
  intros Hall Hout. rewrite run_execute. cbv zeta.
  rewrite run_for_of_app, run_loop_in_stock by exact Hall.
  cbn [final trace result]. cbv zeta. rewrite run_for_of_cons.
  pose proof (run_loop_body_message
                (set_products (commit_items earlier (products b)) b) item
                (foldl append_line
                   (Order.new (pretty (clock b)) customerId Order.pending)
                   (lines_of (products b) earlier))) as Hm.
  simpl products in Hm. unfold in_stock in Hout.
  destruct (commit_items earlier (products b) !! ItemRequest.productId item)
    as [p|].
  - apply bool_decide_eq_false in Hout.
    rewrite bool_decide_true in Hm by lia.
    destruct (run backend (CreateOrderUseCase.loop_body item _) _)
      as [w tr [o|message]]; cbn [final trace result] in *; by simplify_eq.
  - destruct (run backend (CreateOrderUseCase.loop_body item _) _)
      as [w tr [o|message]]; cbn [final trace result] in *; by simplify_eq.
Qed.

Lemma execute_never_entity_message
  (b : Backend) (customerId : string) (items : list ItemRequest.t) :
  result (run backend (CreateOrderUseCase.execute customerId items) b)
  ≠ Thrown "Stock insuficiente".
Proof.
  destruct (all_in_stock (products b) items) eqn:Hall.
  - by rewrite create_order_accepted.
  - destruct (first_rejected _ _ Hall) as (e & i & l & -> & He & Hi).
    rewrite run_execute_rejected_message by done.
    destruct (commit_items e (products b) !! ItemRequest.productId i);
      simpl; discriminate.
Qed.

(** X20. The exception of a failed [execute] tells the two failures apart:
    for the first item whose turn fails, it names the requested id when the
    product is absent, and the name of the product when the stock is
    exceeded.  The exception of [Product.decreaseStock] is never the one
    thrown, whatever the requests: the use case checks the stock before it
    calls the method. *)
Theorem create_order_messages
  (b : Backend) (customerId : string)
  (earlier : list ItemRequest.t) (item : ItemRequest.t)
  (later : list ItemRequest.t) :
  all_in_stock (products b) earlier = true →
  let r :=
    run backend
      (CreateOrderUseCase.execute customerId (earlier ++ item :: later)) b in
  match commit_items earlier (products b) !! ItemRequest.productId item with
  | None =>
      result r
      = Thrown ("Producto " +:+ ItemRequest.productId item +:+ " no encontrado")
  | Some p =>
      Product.stock p < ItemRequest.quantity item →
      result r
      = Thrown ("Stock insuficiente para el producto " +:+ Product.name p)
  end
  ∧ result r ≠ Thrown "Stock insuficiente".
Proof.
  intros Hall r. split; [|apply execute_never_entity_message].
  pose proof (run_execute_rejected_message b customerId earlier item later Hall)
    as Hm.
  unfold in_stock in Hm.
  destruct (commit_items earlier (products b) !! ItemRequest.productId item)
    as [p|]; [|by apply Hm].
  intros Hlt. apply Hm. by rewrite bool_decide_false by lia.
Qed.

Lemma create_order_messages_witness :
  let b :=
    mkBackend
      {[ "p1" := Product.mk "p1" "Pen" 10 5; "p2" := Product.mk "p2" "Ink" 7 1 ]}
      ∅ [] ∅ 1700000000000 in
  all_in_stock (products b) [ItemRequest.mk "p1" 2] = true
  ∧ result
      (run backend
         (CreateOrderUseCase.execute "c1"
            ([ItemRequest.mk "p1" 2] ++ ItemRequest.mk "p2" 4 :: [])) b)
    = Thrown "Stock insuficiente para el producto Ink"
  ∧ result
      (run backend
         (CreateOrderUseCase.execute "c1"
            ([ItemRequest.mk "p1" 2] ++ ItemRequest.mk "p9" 1 :: [])) b)
    = Thrown "Producto p9 no encontrado".
Proof.
  intros b. split; [reflexivity|]. split.
  - destruct (create_order_messages b "c1" [ItemRequest.mk "p1" 2]
                (ItemRequest.mk "p2" 4) [] eq_refl) as [Hm _].
    vm_compute in Hm. exact (Hm eq_refl).
  - destruct (create_order_messages b "c1" [ItemRequest.mk "p1" 2]
                (ItemRequest.mk "p9" 1) [] eq_refl) as [Hm _].
    vm_compute in Hm. exact Hm.
Defined.

(** *** Whatever implements the repositories *)

Lemma append_line_consistent (order : Order.t) (l : OrderItem.t) :
  consistent (append_line order l)
  ∧ Order.status (append_line order l) = Order.status order
  ∧ Order.id (append_line order l) = Order.id order
  ∧ Order.customerId (append_line order l) = Order.customerId order.
Proof. unfold append_line. by rewrite addItem_unfold. Qed.

Lemma run_loop_body_any {W} (h : Handler W)
  (item : ItemRequest.t) (order : Order.t) (w : W) :
  let r := run h (CreateOrderUseCase.loop_body item order) w in
  Forall loop_call (trace r)
  ∧ ∀ order', result r = Returned order' → ∃ l, order' = append_line order l.
Proof.
  unfold CreateOrderUseCase.loop_body. simpl.
  destruct (h (ProductFindById (ItemRequest.productId item)) w)
    as [w1 [[p|]|message]]; simpl.
  - case_bool_decide as Hlt.
    + simpl. split; [by repeat constructor|done].
    + rewrite invoke_decreaseStock by lia. simpl.
      destruct (h (ProductSave _) w1) as [w2 [[]|message]]; simpl.
      * split; [repeat constructor; simpl; lia|].
        intros order' [= <-]. by eexists.
      * split; [repeat constructor; simpl; lia|done].
  - split; [by repeat constructor|done].
  - split; [by repeat constructor|done].
Qed.

Lemma run_loop_any {W} (h : Handler W)
  (items : list ItemRequest.t) (order : Order.t) (w : W) :
  let r := run h (for_of items CreateOrderUseCase.loop_body order) w in
  Forall loop_call (trace r)
  ∧ ∀ order',
      result r = Returned order' →
      (consistent order → consistent order')
      ∧ Order.status order' = Order.status order
      ∧ Order.id order' = Order.id order
      ∧ Order.customerId order' = Order.customerId order.
Proof.
  revert order w. induction items as [|item items IH]; intros order w.
  - simpl. split; [constructor|]. by intros order' [= <-].
  - cbv zeta. rewrite run_for_of_cons.
    destruct (run_loop_body_any h item order w) as [Htr Hres].
    destruct (run h (CreateOrderUseCase.loop_body item order) w)
      as [w1 tr1 [order1|message]]; cbn [final trace result] in *; [|done].
    destruct (Hres order1 eq_refl) as [l ->].
    destruct (IH (append_line order l) w1) as [Htr2 Hres2].
    destruct (append_line_consistent order l) as (Hc & Hs & Hi & Hcu).
    split; [by apply Forall_app|].
    intros order' Hr. destruct (Hres2 order' Hr) as (Hc' & Hs' & Hi' & Hcu').
    split; [auto|]. split; [congruence|]. split; congruence.
Qed.

Lemma run_execute_any {W} (h : Handler W)
  (customerId : string) (items : list ItemRequest.t) (w : W) :
  run h (CreateOrderUseCase.execute customerId items) w
  = match h DateNow w with
    | (w0, Thrown message) => mkRun w0 [DateNow] (Thrown message)
    | (w0, Returned now) =>
        let loop :=
          run h
            (for_of items CreateOrderUseCase.loop_body
               (Order.new (pretty now) customerId Order.pending)) w0 in
        match result loop with
        | Thrown message =>
            mkRun (final loop) (DateNow :: trace loop) (Thrown message)
        | Returned order =>
            match h (OrderSave order) (final loop) with
            | (w2, Returned _) =>
                mkRun w2 (DateNow :: trace loop ++ [OrderSave order])
                  (Returned order)
            | (w2, Thrown message) =>
                mkRun w2 (DateNow :: trace loop ++ [OrderSave order])
                  (Thrown message)
            end
        end
    end.
Proof.
  unfold CreateOrderUseCase.execute. simpl.
  destruct (h DateNow w) as [w0 [now|message]]; [|done]. simpl.
  fold (@mbind Prog _ Order.t Order.t). rewrite run_bind.
  destruct (run h (for_of items _ _) w0) as [w1 tr1 [order|message]];
    cbn [final trace result]; [|done].
  simpl. by destruct (h (OrderSave order) w1) as [w2 [[]|message]].
Qed.

Lemma execute_trace_shape {W} (h : Handler W)
  (customerId : string) (items : list ItemRequest.t) (w : W) :
  let r := run h (CreateOrderUseCase.execute customerId items) w in
  ∃ calls tail,
    trace r = DateNow :: calls ++ tail
    ∧ Forall loop_call calls
    ∧ ((tail = [] ∧ is_thrown (result r))
       ∨ ∃ order,
           tail = [OrderSave order]
           ∧ (result r = Returned order ∨ is_thrown (result r))
           ∧ consistent order
           ∧ Order.status order = Order.pending
           ∧ Order.customerId order = customerId).
Proof.
  cbv zeta. rewrite run_execute_any.
  destruct (h DateNow w) as [w0 [now|message]].
  2:{ exists [], []. simpl. split; [done|]. split; [constructor|]. by left. }
  cbv zeta.
  destruct (run_loop_any h items
              (Order.new (pretty now) customerId Order.pending) w0)
    as [Htr Hres].
  destruct (run h (for_of items _ _) w0) as [w1 tr1 [order|message]];
    cbn [final trace result] in *.
  - destruct (Hres order eq_refl) as (Hc & Hs & _ & Hcu).
    specialize (Hc (new_consistent _ _ _)).
    destruct (h (OrderSave order) w1) as [w2 [[]|message]];
      exists tr1, [OrderSave order]; simpl;
      (split; [done|]); (split; [done|]); right; exists order; auto.
  - exists tr1, []. simpl. rewrite app_nil_r.
    split; [done|]. split; [done|]. by left.
Qed.


(** X22. Whatever implements the repositories, [execute] saves no product
    with a negative stock: stocks and quantities being integers, every
    product passed to [save] has a stock of zero or more, whatever integer
    stock it was found with and whatever integer quantities were requested,
    negative ones included. *)
Theorem create_order_saves_no_negative_stock {W} (h : Handler W)
  (customerId : string) (items : list ItemRequest.t) (w : W) (p : Product.t) :
  ProductSave p
  ∈ trace (run h (CreateOrderUseCase.execute customerId items) w) →
  0 ≤ Product.stock p.
Proof.
  destruct (execute_trace_shape h customerId items w)
    as (calls & tail & -> & Hcalls & Htail).
  intros Hin. apply elem_of_cons in Hin as [|Hin]; [done|].
  apply elem_of_app in Hin as [Hin|Hin].
  - rewrite Forall_forall in Hcalls. exact (Hcalls _ Hin).
  - destruct Htail as [[-> _]|(order & -> & _)].
    + by apply elem_of_nil in Hin.
    + apply list_elem_of_singleton in Hin. discriminate.
Qed.

Lemma create_order_saves_no_negative_stock_witness :
  let b :=
    mkBackend {[ "p1" := Product.mk "p1" "Pen" 10 5 ]} ∅ [] ∅ 1700000000000 in
  let p := Product.mk "p1" "Pen" 10 8 in
  ProductSave p
  ∈ trace
      (run backend
         (CreateOrderUseCase.execute "c1" [ItemRequest.mk "p1" (-3)]) b)
  ∧ 0 ≤ Product.stock p.
Proof.
  intros b p.
  assert (Hin : ProductSave p
                ∈ trace
                    (run backend
                       (CreateOrderUseCase.execute "c1" [ItemRequest.mk "p1" (-3)])
                       b)).
  { vm_compute. apply list_elem_of_In. right. right. left. reflexivity. }
  split; [exact Hin|].
  exact (create_order_saves_no_negative_stock backend "c1"
           [ItemRequest.mk "p1" (-3)] b p Hin).
Defined.

(** *** On a repository that files every product under its id *)

Lemma commit_item_lookup
  (m : gmap string Product.t) (x : ItemRequest.t) (k : string) :
  keyed_by_id m →
  commit_item m x !! k
  = (λ p,
       if decide (ItemRequest.productId x = k)
       then Product.set_stock (Product.stock p - ItemRequest.quantity x) p
       else p)
    <$> m !! k.
Proof.
  intros Hk. unfold commit_item.
  destruct (m !! ItemRequest.productId x) as [p0|] eqn:Hp0.
  - rewrite lookup_insert, (Hk _ _ Hp0). case_decide as Heq.
    + subst k. by rewrite Hp0.
    + by destruct (m !! k).
  - case_decide as Heq.
    + subst k. by rewrite Hp0.
    + by destruct (m !! k).
Qed.

Lemma requested_cons (k : string) (x : ItemRequest.t) (xs : list ItemRequest.t) :
  requested k (x :: xs)
  = (if decide (ItemRequest.productId x = k) then ItemRequest.quantity x else 0)
    + requested k xs.
Proof.
  unfold requested. case_decide.
  - by rewrite filter_cons_True by done.
  - rewrite filter_cons_False by done. lia.
Qed.

Lemma commit_items_lookup
  (items : list ItemRequest.t) (m : gmap string Product.t) (k : string) :
  keyed_by_id m →
  commit_items items m !! k
  = (λ p, Product.set_stock (Product.stock p - requested k items) p) <$> m !! k.
Proof.
  revert m. induction items as [|x xs IH]; intros m Hk.
  - unfold commit_items, requested. simpl.
    destruct (m !! k) as [p|]; [|done]. simpl. f_equal.
    symmetry. apply set_stock_same. lia.
  - change (commit_items (x :: xs) m) with (commit_items xs (commit_item m x)).
    rewrite IH by (by apply commit_item_keyed).
    rewrite commit_item_lookup by done. rewrite requested_cons.
    destruct (m !! k) as [p|]; [|done]. simpl. f_equal.
    case_decide; simpl; rewrite ?set_stock_set_stock; f_equal; lia.
Qed.

Lemma not_thrown_in_stock
  (b : Backend) (customerId : string) (items : list ItemRequest.t) :
  ¬ is_thrown (result (run backend (CreateOrderUseCase.execute customerId items) b)) →
  all_in_stock (products b) items = true.
Proof.
  intros Hr. destruct (all_in_stock (products b) items) eqn:Hall; [done|].
  exfalso. apply Hr. by apply create_order_returns_iff.
Qed.

(** X23. Stock is conserved within the safe integers.  On a repository
    that files every product under its id and holds safe integers as
    stocks, when [execute] returns on requests whose quantities are integers
    that are not negative, each product has lost exactly the quantities
    requested of it, added over all the requests that name it, name and
    price unchanged; a product no request names is untouched, and no product
    appears or disappears. *)
Theorem create_order_stock_conservation
  (b : Backend) (customerId : string) (items : list ItemRequest.t) :
  keyed_by_id (products b) →
  safe_stocks (products b) →
  Forall (λ x, 0 ≤ ItemRequest.quantity x) items →
  let r := run backend (CreateOrderUseCase.execute customerId items) b in
  ¬ is_thrown (result r) →
  ∀ k,
    products (final r) !! k
    = (λ p, Product.set_stock (Product.stock p - requested k items) p)
      <$> products b !! k.
Proof.
  intros Hk _ _ r Hr k. apply not_thrown_in_stock in Hr.
  unfold r. rewrite create_order_accepted by exact Hr. simpl.
  by apply commit_items_lookup.
Qed.

Lemma create_order_stock_conservation_witness :
  let b :=
    mkBackend
      {[ "p1" := Product.mk "p1" "Pen" 10 5; "p2" := Product.mk "p2" "Ink" 7 1 ]}
      ∅ [] ∅ 1700000000000 in
  let items :=
    [ItemRequest.mk "p1" 2; ItemRequest.mk "p2" 1; ItemRequest.mk "p1" 3] in
  let r := run backend (CreateOrderUseCase.execute "c1" items) b in
  keyed_by_id (products b)
  ∧ safe_stocks (products b)
  ∧ Forall (λ x, 0 ≤ ItemRequest.quantity x) items
  ∧ ¬ is_thrown (result r)
  ∧ products (final r) !! "p1" = Some (Product.mk "p1" "Pen" 10 0)
  ∧ products (final r) !! "p3" = None.
Proof.
  intros b items r.
  assert (Hk : keyed_by_id (products b)).
  { intros k p Hp. simpl in Hp.
    apply lookup_insert_Some in Hp as [[<- <-]|[_ Hp]]; [done|].
    by apply lookup_singleton_Some in Hp as [<- <-]. }
  assert (Hs : safe_stocks (products b)).
  { intros k p Hp. simpl in Hp.
    apply lookup_insert_Some in Hp as [[<- <-]|[_ Hp]]; [by vm_compute|].
    apply lookup_singleton_Some in Hp as [<- <-]. by vm_compute. }
  assert (Hq : Forall (λ x, 0 ≤ ItemRequest.quantity x) items).
  { repeat constructor; simpl; lia. }
  assert (Hr : ¬ is_thrown (result r)) by (vm_compute; tauto).
  split; [exact Hk|]. split; [exact Hs|]. split; [exact Hq|].
  split; [exact Hr|]. unfold r in *.
  split.
  - rewrite (create_order_stock_conservation b "c1" items Hk Hs Hq Hr "p1").
    reflexivity.
  - rewrite (create_order_stock_conservation b "c1" items Hk Hs Hq Hr "p3").
    reflexivity.
Defined.






Lemma requested_nonneg (k : string) (items : list ItemRequest.t) :
  Forall (λ x, 0 ≤ ItemRequest.quantity x) items → 0 ≤ requested k items.
Proof.
  induction 1 as [|x xs Hx _ IH]; [done|].
  rewrite requested_cons. case_decide; lia.
Qed.

Lemma requested_absent (k : string) (items : list ItemRequest.t) :
  (∀ y, y ∈ items → ItemRequest.productId y ≠ k) → requested k items = 0.
Proof.
  induction items as [|x xs IH]; intros Hnone; [done|].
  rewrite requested_cons, decide_False by (apply Hnone; left).
  rewrite IH; [done|]. intros y Hy. apply Hnone. by right.
Qed.

Lemma all_in_stock_demand (items : list ItemRequest.t) (m : gmap string Product.t) :
  keyed_by_id m →
  Forall (λ x, 0 ≤ ItemRequest.quantity x) items →
  all_in_stock m items = true
  ↔ ∀ x, x ∈ items →
         ∃ p, m !! ItemRequest.productId x = Some p
              ∧ requested (ItemRequest.productId x) items ≤ Product.stock p.
Proof.
  revert m. induction items as [|x xs IH]; intros m Hk Hq.
  { split; [|done]. intros _ y Hy. by apply elem_of_nil in Hy. }
  apply Forall_cons in Hq as [Hqx Hq].
  pose proof (commit_item_keyed m x Hk) as Hk'.
  simpl. rewrite andb_true_iff, in_stock_true, (IH _ Hk' Hq). split.
  - intros [(p & Hp & Hle) Hrest] y Hy. rewrite requested_cons.
    apply elem_of_cons in Hy as [->|Hy].
    + exists p. split; [done|]. rewrite decide_True by done.
      destruct (decide (Exists (λ y, ItemRequest.productId y
                                     = ItemRequest.productId x) xs)) as [He|He].
      * apply Exists_exists in He as (y & Hy & Hyx).
        destruct (Hrest y Hy) as (p' & Hp' & Hle').
        rewrite commit_item_lookup, Hyx, Hp in Hp' by done.
        simpl in Hp'. rewrite decide_True in Hp' by done.
        injection Hp' as <-. simpl in Hle'. rewrite Hyx in Hle'. lia.
      * assert (Hz : requested (ItemRequest.productId x) xs = 0).
        { apply requested_absent. intros y Hy Hyx.
          apply He, Exists_exists. eauto. }
        lia.
    + destruct (Hrest y Hy) as (p' & Hp' & Hle').
      rewrite commit_item_lookup in Hp' by done.
      destruct (m !! ItemRequest.productId y) as [p0|]; [|done].
      exists p0. split; [done|]. simpl in Hp'. injection Hp' as <-.
      case_decide; simpl in Hle'; lia.
  - intros Hall. split.
    + destruct (Hall x) as (p & Hp & Hle); [by left|].
      exists p. split; [done|]. rewrite requested_cons, decide_True in Hle by done.
      pose proof (requested_nonneg (ItemRequest.productId x) xs Hq). lia.
    + intros y Hy. destruct (Hall y) as (p & Hp & Hle); [by right|].
      rewrite commit_item_lookup, Hp by done. simpl.
      eexists. split; [reflexivity|]. rewrite requested_cons in Hle.
      case_decide; simpl; lia.
Qed.

(** X25. Within the safe integers, [execute] returns exactly when the
    demand fits.  When the quantities are integers that are not negative
    and add up to at most [max_safe_integer], and the repository files
    every product under its id and holds safe integers as stocks, [execute]
    returns exactly when every product named by a request is present with a
    stock that covers all that is requested of it, added over the whole
    list; otherwise it throws. *)
Theorem create_order_returns_when_demand_fits
  (b : Backend) (customerId : string) (items : list ItemRequest.t) :
  keyed_by_id (products b) →
  safe_stocks (products b) →
  Forall (λ x, 0 ≤ ItemRequest.quantity x) items →
  total_requested items ≤ max_safe_integer →
  let r := run backend (CreateOrderUseCase.execute customerId items) b in
  ¬ is_thrown (result r)
  ↔ ∀ x, x ∈ items →
         ∃ p, products b !! ItemRequest.productId x = Some p
              ∧ requested (ItemRequest.productId x) items ≤ Product.stock p.
Proof.
  intros Hk _ Hq _ r. rewrite <- (all_in_stock_demand items _ Hk Hq).
  unfold r. rewrite create_order_returns_iff.
  by destruct (all_in_stock (products b) items).
Qed.

Lemma create_order_returns_when_demand_fits_witness :
  let b :=
    mkBackend
      {[ "p1" := Product.mk "p1" "Pen" 10 5; "p2" := Product.mk "p2" "Ink" 7 1 ]}
      ∅ [] ∅ 1700000000000 in
  let items := [ItemRequest.mk "p1" 3; ItemRequest.mk "p2" 1; ItemRequest.mk "p1" 3] in
  keyed_by_id (products b)
  ∧ safe_stocks (products b)
  ∧ Forall (λ x, 0 ≤ ItemRequest.quantity x) items
  ∧ total_requested items ≤ max_safe_integer
  ∧ is_thrown (result (run backend (CreateOrderUseCase.execute "c1" items) b))
  ∧ ¬ ∀ x, x ∈ items →
           ∃ p, products b !! ItemRequest.productId x = Some p
                ∧ requested (ItemRequest.productId x) items ≤ Product.stock p.
Proof.
  intros b items.
  assert (Hk : keyed_by_id (products b)).
  { intros k p Hp. simpl in Hp.
    apply lookup_insert_Some in Hp as [[<- <-]|[_ Hp]]; [done|].
    by apply lookup_singleton_Some in Hp as [<- <-]. }
  assert (Hs : safe_stocks (products b)).
  { intros k p Hp. simpl in Hp.
    apply lookup_insert_Some in Hp as [[<- <-]|[_ Hp]]; [by vm_compute|].
    apply lookup_singleton_Some in Hp as [<- <-]. by vm_compute. }
  assert (Hq : Forall (λ x, 0 ≤ ItemRequest.quantity x) items).
  { repeat constructor; simpl; lia. }
  assert (Ht : total_requested items ≤ max_safe_integer) by (by vm_compute).
  split; [exact Hk|]. split; [exact Hs|]. split; [exact Hq|].
  split; [exact Ht|].
  split; [by vm_compute|].
  intros Hfit.
  apply (create_order_returns_when_demand_fits b "c1" items Hk Hs Hq Ht) in Hfit.
  apply Hfit. by vm_compute.
Defined.

(** ** Order: how a status is reached *)

Lemma completed_after_processing (cs : list StatusCall) (this : Order.t) :
  Order.status this = Order.processing →
  Order.status (status_attempts cs this) = Order.completed →
  ∃ before later, cs = before ++ Complete :: later.
Proof.
  revert this. induction cs as [|c cs IH]; intros this Hs Hend.
  { simpl in Hend. congruence. }
  rewrite status_attempts_cons, after_status_call, Hs in Hend.
  destruct c.
  - destruct (IH this Hs Hend) as (before & later & ->).
    by exists (Process :: before), later.
  - by exists [], cs.
  - rewrite final_statuses_absorb_aux in Hend by (by right). simpl in Hend.
    congruence.
Qed.

(** X26. An order is not completed without having been processed: if an
    order that was pending is completed after some status calls, attempted
    in turn whatever each one did, then [process] is among them and
    [complete] comes after it. *)
Theorem completed_only_through_processing
  (this : Order.t) (cs : list StatusCall) :
  Order.status this = Order.pending →
  Order.status (status_attempts cs this) = Order.completed →
  ∃ before between later, cs = before ++ Process :: between ++ Complete :: later.
Proof.
  revert this. induction cs as [|c cs IH]; intros this Hs Hend.
  { simpl in Hend. congruence. }
  rewrite status_attempts_cons, after_status_call, Hs in Hend.
  destruct c.
  - destruct (completed_after_processing cs
                (Order.set_status Order.processing this) eq_refl Hend)
      as (between & later & ->).
    by exists [], between, later.
  - destruct (IH this Hs Hend) as (before & between & later & ->).
    by exists (Complete :: before), between, later.
  - rewrite final_statuses_absorb_aux in Hend by (by right). simpl in Hend.
    congruence.
Qed.

Lemma completed_only_through_processing_witness :
  let this := Order.new "1700000000000" "c1" Order.pending in
  let cs := [Complete; Process; Process; Complete; Cancel] in
  Order.status this = Order.pending
  ∧ Order.status (status_attempts cs this) = Order.completed
  ∧ ∃ before between later, cs = before ++ Process :: between ++ Complete :: later.
Proof.
  intros this cs. split; [reflexivity|]. split; [reflexivity|].
  apply (completed_only_through_processing this cs); reflexivity.
Defined.
